(** * mpop.composites: RGB compositors and the sun-zenith normaliser

    A shallow embedding of [mpop/composites/__init__.py].

    - A masked numpy array is a shape together with nested rows of cells;
      a cell is [Some q] (a valid number) or [None] (masked).  Numbers are
      rationals: the rounding of floating-point arithmetic is not modelled.
    - A metadata dictionary ([info]) is a finite map from strings to Python
      values.
    - Python exceptions are the [Err] results of a small error monad; the
      class-level cache of [SunZenithNormalize] and the caller's list of
      projectables live in an explicit [world], threaded by a state monad
      that keeps the state reached when an exception is raised. *)

From Stdlib Require Import QArith Ascii.
From stdpp Require Import gmap strings list fin_maps pretty.

Close Scope Q_scope.

(** ** Python values and exceptions *)

Inductive exn :=
| ValueError (msg : string)
| TypeError (msg : string)
| KeyError (key : string)
| AttributeError (attr : string)
| IndexError
| NameError
| NotImplementedError.

Inductive result (A : Type) :=
| Ok (a : A)
| Err (e : exn).
Arguments Ok {A} a.
Arguments Err {A} e.

Definition rbind {A B} (r : result A) (f : A -> result B) : result B :=
  match r with
  | Ok a => f a
  | Err e => Err e
  end.

(** ** numpy arrays *)

(** A cell of a masked array: [None] is a masked (invalid) cell. *)
Definition cell := option Q.

(** A plain two-dimensional [ndarray] of numbers. *)
Record ndarray := mk_ndarray {
  nshape : nat * nat;
  nrows : list (list Q)
}.

(** A two-dimensional [numpy.ma.MaskedArray]. *)
Record MaskedArray := mk_MaskedArray {
  shape : nat * nat;
  rows : list (list cell)
}.

(** A three-dimensional [numpy.ma.MaskedArray], indexed [a[i][j][k]]. *)
Record MaskedArray3 := mk_MaskedArray3 {
  shape3 : nat * nat * nat;
  planes : list (list (list cell))
}.

(** The rows of an array agree with its shape. *)
Definition wf_rows {A} (sh : nat * nat) (rs : list (list A)) : Prop :=
  length rs = sh.1 ∧ Forall (λ r, length r = sh.2) rs.

Definition wf_array (a : MaskedArray) : Prop := wf_rows (shape a) (rows a).

Definition shape_eqb (s t : nat * nat) : bool :=
  Nat.eqb s.1 t.1 && Nat.eqb s.2 t.2.

(** [a[i][j]]; outside the rows (which a well-formed index never is) the
    cell reads as masked. *)
Definition getitem (a : MaskedArray) (i j : nat) : cell :=
  nth j (nth i (rows a) []) None.

Definition getitem3 (a : MaskedArray3) (i j k : nat) : cell :=
  nth k (nth j (nth i (planes a) []) []) None.

Definition Qltb (x y : Q) : bool := negb (Qle_bool y x).

Module np.

Definition broadcast_msg : string :=
  "operands could not be broadcast together".
Definition concatenate_empty_msg : string :=
  "need at least one array to concatenate".
Definition concatenate_shape_msg : string :=
  "all the input array dimensions except for the concatenation axis must match exactly".

(** [np.atleast_3d] on a two-dimensional array: shape (H, W) becomes
    (H, W, 1). *)
Definition atleast_3d (a : MaskedArray) : MaskedArray3 :=
  {| shape3 := ((shape a).1, (shape a).2, 1);
     planes := map (map (λ c, [c])) (rows a) |}.

(** [np.ma.concatenate((x, y), axis=2)]. *)
Definition concatenate2 (x y : MaskedArray3) : result MaskedArray3 :=
  let '(h, w, k) := shape3 x in
  let '(h', w', k') := shape3 y in
  if Nat.eqb h h' && Nat.eqb w w'
  then Ok {| shape3 := (h, w, k + k');
             planes := zip_with (zip_with app) (planes x) (planes y) |}
  else Err (ValueError concatenate_shape_msg).

(** [np.ma.dstack]: every array is made three-dimensional and the
    results are concatenated along the third axis. *)
Definition dstack (arrays : list MaskedArray) : result MaskedArray3 :=
  match map atleast_3d arrays with
  | [] => Err (ValueError concatenate_empty_msg)
  | x :: xs => foldl (λ acc y, rbind acc (λ a, concatenate2 a y)) (Ok x) xs
  end.

(** [np.rollaxis(a, axis=2)]: the third axis is rolled to the front, so
    [out[k][i][j] = a[i][j][k]] and shape (H, W, K) becomes (K, H, W). *)
Definition rollaxis2 (a : MaskedArray3) : MaskedArray3 :=
  let '(h, w, k) := shape3 a in
  {| shape3 := (k, h, w);
     planes := map (λ c, map (map (λ v, nth c v None)) (planes a)) (seq 0 k) |}.

(** [np.ma.masked_outside(x, v1, v2)] on a plain array: a cell is masked
    where [(x < v1) | (x > v2)], after the bounds are put in order. *)
Definition masked_outside_cell (v1 v2 x : Q) : cell :=
  let '(lo, hi) := if Qltb v2 v1 then (v2, v1) else (v1, v2) in
  if Qltb x lo || Qltb hi x then None else Some x.

Definition masked_outside (x : ndarray) (v1 v2 : Q) : MaskedArray :=
  {| shape := nshape x;
     rows := map (map (masked_outside_cell v1 v2)) (nrows x) |}.

End np.

(** ** Metadata *)

(** An area definition as far as the compositors use it: [area.name] and
    [area.get_lonlats()]. *)
Record AreaDefinition := mk_AreaDefinition {
  name : string;
  get_lonlats : ndarray * ndarray
}.

(** The Python values that metadata holds.  [VTime] is a [datetime],
    counted in seconds. *)
Inductive value :=
| VNone
| VStr (s : string)
| VSet (s : gset string)
| VNum (q : Q)
| VTime (t : Z)
| VArea (a : AreaDefinition).

(** Python's truth value of an object, as tested by [if current_sensor:]. *)
Definition truthy (v : value) : bool :=
  match v with
  | VNone => false
  | VStr s => negb (String.eqb s "")
  | VSet s => negb (bool_decide (s = ∅))
  | VNum q => negb (Qeq_bool q 0)
  | VTime _ => true
  | VArea _ => true
  end.

(** [d.update(other)]: the keys of [other] overwrite those of [d]. *)
Definition update (d other : gmap string value) : gmap string value :=
  other ∪ d.

(** [d.pop(key, None)], for its effect on [d]. *)
Definition pop (key : string) (d : gmap string value) : gmap string value :=
  delete key d.

(** [d[key] = v]. *)
Definition setitem (key : string) (v : value) (d : gmap string value)
  : gmap string value :=
  <[key := v]> d.

(** [d[key]], raising [KeyError] when the key is absent. *)
Definition dict_getitem (d : gmap string value) (key : string) : result value :=
  match d !! key with
  | Some v => Ok v
  | None => Err (KeyError key)
  end.

(** [d.get(key)], with [None] as the default. *)
Definition dict_get (d : gmap string value) (key : string) : value :=
  default VNone (d !! key).

(** ** Projectables *)

(** A projectable carries its [data] and its [info] dictionary.  The bands
    given to a compositor hold a two-dimensional masked array, a composite
    a three-dimensional one. *)
Record Projectable (D : Type) := mk_Projectable {
  data : D;
  info : gmap string value
}.
Arguments mk_Projectable {D} data info.
Arguments data {D} p.
Arguments info {D} p.

Definition Band := Projectable MaskedArray.
Definition Composite := Projectable MaskedArray3.

(** Modelled from the spec: the constructor of [Projectable], a class of
    [mpop.projectable] that is not among the sources.  The spec has the
    result carry the stacked array and the merged metadata.  The call
    [Projectable(data=the_data, **info)] itself raises [TypeError] when
    [info] has a key [data], by the rules of keyword arguments. *)
Definition Projectable_init (the_data : MaskedArray3) (kw : gmap string value)
  : result Composite :=
  match kw !! "data" with
  | Some _ => Err (TypeError "got multiple values for keyword argument 'data'")
  | None => Ok (mk_Projectable the_data kw)
  end.

Definition cell_op (op : Q -> Q -> Q) (x y : cell) : cell :=
  match x, y with
  | Some p, Some q => Some (op p q)
  | _, _ => None
  end.

(** Modelled from the spec: the element-wise arithmetic of [Projectable],
    a class of [mpop.projectable] that is not among the sources.  The spec
    has it work cell by cell on grids of one shape and mask the result
    where either operand is masked; operands of different shapes are
    refused here (numpy's broadcasting is not modelled). *)
Definition elementwise (op : Q -> Q -> Q) (a b : MaskedArray)
  : result MaskedArray :=
  if shape_eqb (shape a) (shape b)
  then Ok {| shape := shape a;
             rows := zip_with (zip_with (cell_op op)) (rows a) (rows b) |}
  else Err (ValueError np.broadcast_msg).

(** [l[i]] on a Python sequence. *)
Definition seq_getitem {A} (l : list A) (i : nat) : result A :=
  match l !! i with
  | Some x => Ok x
  | None => Err IndexError
  end.

(** A composite object, as far as [__call__] reads it: the [info]
    dictionary that [CompositeBase.__init__] hands to [InfoObject]. *)
Record CompositeBase := mk_CompositeBase {
  composite_info : gmap string value
}.

(** [CompositeBase.__call__] *)
Definition CompositeBase_call (self : CompositeBase) (projectables : list Band)
  : result Composite :=
  Err NotImplementedError.

(** ** RGBCompositor *)

Definition expected_msg (n : nat) : string :=
  "Expected 3 projectables, got " +:+ pretty n.

(** One turn of the loop over the projectables that collects the sensors. *)
Definition sensor_step (sensor : gset string) (projectable : Band)
  : result (gset string) :=
  let current_sensor := dict_get (info projectable) "sensor" in
  if truthy current_sensor then
    match current_sensor with
    | VStr s => Ok ({[ s ]} ∪ sensor)
    | VSet s => Ok (sensor ∪ s)
    | _ => Err (TypeError "unsupported operand type(s) for |=")
    end
  else Ok sensor.

Definition collect_sensors (projectables : list Band) : result (gset string) :=
  foldl (λ acc p, rbind acc (λ sensor, sensor_step sensor p)) (Ok ∅) projectables.

(** [None] for no sensor, the sensor itself for one, the set otherwise;
    [len(sensor)] is the length of [elements sensor] and
    [list(sensor)[0]] its head. *)
Definition collapse_sensor (sensor : gset string) : value :=
  match elements sensor with
  | [] => VNone
  | [s] => VStr s
  | _ => VSet sensor
  end.

(** [RGBCompositor.__call__] *)
Definition RGBCompositor_call (self : CompositeBase) (projectables : list Band)
  : result Composite :=
  if negb (Nat.eqb (length projectables) 3)
  then Err (ValueError (expected_msg (length projectables)))
  else
    rbind (np.dstack (map data projectables)) (λ stacked,
    let the_data := np.rollaxis2 stacked in
    rbind (seq_getitem projectables 0) (λ p0,
    let info0 := info p0 in
    rbind (seq_getitem projectables 1) (λ p1,
    let info1 := update info0 (info p1) in
    rbind (seq_getitem projectables 2) (λ p2,
    let info2 := update info1 (info p2) in
    let info3 := update info2 (composite_info self) in
    let info4 := pop "wavelength_range" info3 in
    let info5 := pop "units" info4 in
    rbind (collect_sensors projectables) (λ sensor,
    let info6 := setitem "sensor" (collapse_sensor sensor) info5 in
    let info7 := setitem "mode" (VStr "RGB") info6 in
    Projectable_init the_data info7))))).

(** ** The world: the cache of cosines and the caller's sequences *)

(** A Python sequence of bands: a list can be assigned to by index, a
    tuple cannot. *)
Inductive pyseq :=
| PyList (items : list Band)
| PyTuple (items : list Band).

Definition seq_items (s : pyseq) : list Band :=
  match s with
  | PyList items => items
  | PyTuple items => items
  end.

(** [coszen] is the class attribute [SunZenithNormalize.coszen], shared by
    every instance; [cos_zen_calls] records, oldest first, the arguments
    of every call of [pyorbital.astronomy.cos_zen]; [heap] holds the
    sequences that callers pass by reference. *)
Record world := mk_world {
  coszen : gmap (Z * string) MaskedArray;
  cos_zen_calls : list (Z * ndarray * ndarray);
  heap : gmap nat pyseq
}.

Definition M (A : Type) : Type := world -> world * result A.

Definition ret {A} (a : A) : M A := λ w, (w, Ok a).

Definition lift {A} (r : result A) : M A := λ w, (w, r).

Definition bind {A B} (m : M A) (f : A -> M B) : M B :=
  λ w, match m w with
       | (w', Ok a) => f a w'
       | (w', Err e) => (w', Err e)
       end.

Notation "'let*' x ':=' m 'in' k" := (bind m (λ x, k))
  (at level 10, x name, m at level 100, k at level 200).

(** [key in self.coszen] *)
Definition cache_contains (key : Z * string) : M bool :=
  λ w, (w, Ok (bool_decide (is_Some (coszen w !! key)))).

(** [self.coszen[key] = g] *)
Definition cache_setitem (key : Z * string) (g : MaskedArray) : M unit :=
  λ w, (mk_world (<[key := g]> (coszen w)) (cos_zen_calls w) (heap w), Ok tt).

(** [self.coszen[key]] *)
Definition cache_getitem (key : Z * string) : M MaskedArray :=
  λ w, (w, match coszen w !! key with
           | Some g => Ok g
           | None => Err (KeyError "coszen")
           end).

(** Reading the sequence behind a reference. *)
Definition load (r : nat) : M pyseq :=
  λ w, (w, match heap w !! r with
           | Some s => Ok s
           | None => Err NameError
           end).

(** [projectables[i] = p], in place. *)
Definition store_item (r i : nat) (p : Band) : M unit :=
  λ w, match heap w !! r with
       | Some (PyList items) =>
           if bool_decide (i < length items)
           then (mk_world (coszen w) (cos_zen_calls w)
                          (<[r := PyList (<[i := p]> items)]> (heap w)), Ok tt)
           else (w, Err IndexError)
       | Some (PyTuple _) =>
           (w, Err (TypeError "'tuple' object does not support item assignment"))
       | None => (w, Err NameError)
       end.

Section Composites.

(** [pyorbital.astronomy.cos_zen(utc_time, lon, lat)], a function of
    another package. *)
Variable cos_zen : Z -> ndarray -> ndarray -> ndarray.

(** The metadata that the difference of two projectables carries, which
    the arithmetic of the absent class [Projectable] decides. *)
Variable sub_info : gmap string value -> gmap string value -> gmap string value.

(** Calling [cos_zen], with the call recorded. *)
Definition call_cos_zen (t : Z) (lons lats : ndarray) : M ndarray :=
  λ w, (mk_world (coszen w) (cos_zen_calls w ++ [(t, lons, lats)]) (heap w),
        Ok (cos_zen t lons lats)).

(** Modelled from the spec: [projectable - other], of the absent class
    [Projectable]: element-wise on the grids, masks propagated. *)
Definition Projectable_sub (a b : Band) : result Band :=
  rbind (elementwise Qminus (data a) (data b)) (λ d,
  Ok (mk_Projectable d (sub_info (info a) (info b)))).

(** Modelled from the spec: [projectable / grid], of the absent class
    [Projectable]: element-wise on the grids, the mask the union of both
    masks, the metadata that of the projectable. *)
Definition Projectable_div (a : Band) (g : MaskedArray) : result Band :=
  rbind (elementwise Qdiv (data a) g) (λ d,
  Ok (mk_Projectable d (info a))).

(** ** SunZenithNormalize *)

Definition as_area (v : value) : result AreaDefinition :=
  match v with
  | VArea a => Ok a
  | _ => Err (AttributeError "name")
  end.

(** The only times of the model are [datetime]s: any other [start_time]
    is refused, as [cos_zen] refuses it.  Such a value is never the key of
    a cached grid, so the refusal comes in the source too before any grid
    is used. *)
Definition as_time (v : value) : result Z :=
  match v with
  | VTime t => Ok t
  | _ => Err (TypeError "start_time is not a datetime")
  end.

(** The key [(start_time, area.name)] of a projectable. *)
Definition cache_key (projectable : Band) : result (Z * string) :=
  rbind (dict_getitem (info projectable) "start_time") (λ start_time,
  rbind (dict_getitem (info projectable) "area") (λ area,
  rbind (as_area area) (λ a,
  rbind (as_time start_time) (λ t,
  Ok (t, name a))))).

(** [SunZenithNormalize.__call__] *)
Definition SunZenithNormalize_call (projectable : Band) : M Band :=
  let* key := lift (cache_key projectable) in
  let* cached := cache_contains key in
  let* _ :=
    if negb cached then
      let* start_time := lift (dict_getitem (info projectable) "start_time") in
      let* t := lift (as_time start_time) in
      let* area := lift (dict_getitem (info projectable) "area") in
      let* a := lift (as_area area) in
      let* cosines := call_cos_zen t (get_lonlats a).1 (get_lonlats a).2 in
      cache_setitem key (np.masked_outside cosines (35 # 1000) 1)
    else ret tt in
  let* g := cache_getitem key in
  lift (Projectable_div projectable g).

(** ** SunCorrectedRGB *)

(** [projectable.info.get("units") == "%"] *)
Definition units_is_percent (projectable : Band) : bool :=
  match dict_get (info projectable) "units" with
  | VStr s => String.eqb s "%"
  | _ => false
  end.

(** The loop [for i, projectable in enumerate(projectables)], from index
    [i] on.  The iterator reads the live sequence at every turn and stops
    past its end; the body never changes the length, so as many turns as
    the sequence is long are enough. *)
Fixpoint correct_loop (r i turns : nat) : M unit :=
  match turns with
  | O => ret tt
  | S turns' =>
      let* s := load r in
      match seq_items s !! i with
      | None => ret tt
      | Some projectable =>
          let* _ :=
            if units_is_percent projectable then
              let* corrected := SunZenithNormalize_call projectable in
              store_item r i corrected
            else ret tt in
          correct_loop r (S i) turns'
      end
  end.

(** [SunCorrectedRGB.__call__], with [projectables] the reference [r]. *)
Definition SunCorrectedRGB_call (self : CompositeBase) (r : nat) : M Composite :=
  let* s := load r in
  let* _ := correct_loop r 0 (length (seq_items s)) in
  let* s' := load r in
  lift (RGBCompositor_call self (seq_items s')).

(** ** Airmass, Convection, Dust *)

(** [Airmass.__call__] *)
Definition Airmass_call (self : CompositeBase) (projectables : list Band)
  : result Composite :=
  rbind (seq_getitem projectables 0) (λ p0,
  rbind (seq_getitem projectables 1) (λ p1,
  rbind (Projectable_sub p0 p1) (λ red,
  rbind (seq_getitem projectables 2) (λ p2,
  rbind (seq_getitem projectables 3) (λ p3,
  rbind (Projectable_sub p2 p3) (λ green,
  rbind (seq_getitem projectables 0) (λ blue,
  RGBCompositor_call self [red; green; blue]))))))).

(** [Convection.__call__] *)
Definition Convection_call (self : CompositeBase) (projectables : list Band)
  : result Composite :=
  rbind (seq_getitem projectables 3) (λ p3,
  rbind (seq_getitem projectables 4) (λ p4,
  rbind (Projectable_sub p3 p4) (λ red,
  rbind (seq_getitem projectables 2) (λ p2,
  rbind (seq_getitem projectables 5) (λ p5,
  rbind (Projectable_sub p2 p5) (λ green,
  rbind (seq_getitem projectables 1) (λ p1,
  rbind (seq_getitem projectables 0) (λ p0,
  rbind (Projectable_sub p1 p0) (λ blue,
  RGBCompositor_call self [red; green; blue]))))))))).

(** [Dust.__call__] *)
Definition Dust_call (self : CompositeBase) (projectables : list Band)
  : result Composite :=
  rbind (seq_getitem projectables 2) (λ p2,
  rbind (seq_getitem projectables 1) (λ p1,
  rbind (Projectable_sub p2 p1) (λ red,
  rbind (seq_getitem projectables 1) (λ p1',
  rbind (seq_getitem projectables 0) (λ p0,
  rbind (Projectable_sub p1' p0) (λ green,
  rbind (seq_getitem projectables 1) (λ blue,
  RGBCompositor_call self [red; green; blue]))))))).

End Composites.

(** ** Definitions that the statements use *)

(** Three bands of shape (H, W) laid one after the other: shape (3, H, W). *)
Definition stack3 (p0 p1 p2 : Band) (h w : nat) : MaskedArray3 :=
  {| shape3 := (3, h, w);
     planes := [rows (data p0); rows (data p1); rows (data p2)] |}.

(** The metadata of a composite of three bands, given the sensors
    collected from them. *)
Definition merged_info (self : CompositeBase) (p0 p1 p2 : Band)
    (sensor : gset string) : gmap string value :=
  setitem "mode" (VStr "RGB")
    (setitem "sensor" (collapse_sensor sensor)
       (pop "units" (pop "wavelength_range"
          (update (update (update (info p0) (info p1)) (info p2))
             (composite_info self))))).

(** The sensor of a band is absent, [None], a string or a set of strings. *)
Definition sensor_ok (p : Band) : Prop :=
  match dict_get (info p) "sensor" with
  | VNone | VStr _ | VSet _ => True
  | _ => False
  end.

(** The sensors that a band contributes: its non-empty string, or the
    members of its set. *)
Definition band_sensors (p : Band) : gset string :=
  match dict_get (info p) "sensor" with
  | VStr s => if String.eqb s "" then ∅ else {[ s ]}
  | VSet s => s
  | _ => ∅
  end.

(** The metadata that the overlay alone gives, with the two keys removed
    and the mode set. *)
Definition overlaid_info (self : CompositeBase) (p0 p1 p2 : Band)
  : gmap string value :=
  setitem "mode" (VStr "RGB")
    (pop "units" (pop "wavelength_range"
       (update (update (update (info p0) (info p1)) (info p2))
          (composite_info self)))).

(** The overlay of the four dictionaries at one key: the composite's own
    value before that of band 2, before band 1, before band 0. *)
Definition overlay_lookup (self : CompositeBase) (p0 p1 p2 : Band) (k : string)
  : option value :=
  match composite_info self !! k with
  | Some v => Some v
  | None =>
      match info p2 !! k with
      | Some v => Some v
      | None =>
          match info p1 !! k with
          | Some v => Some v
          | None => info p0 !! k
          end
      end
  end.

(** The sensors of a band when every string counts, the empty one too. *)
Definition band_sensors_all (p : Band) : gset string :=
  match dict_get (info p) "sensor" with
  | VStr s => {[ s ]}
  | VSet s => s
  | _ => ∅
  end.

(** The grid of cosines that [SunZenithNormalize] computes for a time and
    an area: what [cos_zen] gives, masked outside of [0.035, 1]. *)
Definition cosine_grid (cos_zen : Z → ndarray → ndarray → ndarray) (t : Z)
    (a : AreaDefinition) : MaskedArray :=
  np.masked_outside (cos_zen t (get_lonlats a).1 (get_lonlats a).2) (35 # 1000) 1.

(** The world with another heap. *)
Definition with_heap (h : gmap nat pyseq) (w : world) : world :=
  mk_world (coszen w) (cos_zen_calls w) h.


(** [x[i][j]] on a plain array, when the indices are within it. *)
Definition ndarray_getitem (x : ndarray) (i j : nat) : option Q :=
  nrows x !! i ≫= (.!! j).

(** What the spec says of the sun-corrected compositor: a band whose units
    are "%" is replaced by its normalised version, any other band is passed
    as it is; the three bands so obtained go to the RGB compositor. *)
Definition spec_correct (cos_zen : Z → ndarray → ndarray → ndarray) (p : Band)
  : M Band :=
  if units_is_percent p then SunZenithNormalize_call cos_zen p else ret p.

Fixpoint spec_correct_all (cos_zen : Z → ndarray → ndarray → ndarray)
    (ps : list Band) : M (list Band) :=
  match ps with
  | [] => ret []
  | p :: ps' =>
      let* p' := spec_correct cos_zen p in
      let* rest := spec_correct_all cos_zen ps' in
      ret (p' :: rest)
  end.

Definition SunCorrectedRGB_spec (cos_zen : Z → ndarray → ndarray → ndarray)
    (self : CompositeBase) (ps : list Band) : M Composite :=
  let* ps' := spec_correct_all cos_zen ps in
  lift (RGBCompositor_call self ps').

(** The metadata of a band has a field [units] and it is the string "%". *)
Definition in_percent (p : Band) : Prop :=
  info p !! "units" = Some (VStr "%").

Definition in_percent_dec (p : Band) : {in_percent p} + {¬ in_percent p}.
Proof.
  unfold in_percent. destruct (info p !! "units") as [[|s| | | |]|];
    try (right; discriminate).
  destruct (decide (s = "%")) as [->|Hne]; [left; reflexivity|].
  right. intros [= H]. exact (Hne H).
Defined.

(** The sun-corrected compositor in the words of the spec, the test on the
    units being [in_percent]: a band in "%" is replaced by its normalised
    version, any other band is passed as it is, and the bands so obtained
    go to the RGB compositor. *)
Definition normalize_if_percent (cos_zen : Z → ndarray → ndarray → ndarray)
    (p : Band) : M Band :=
  if in_percent_dec p then SunZenithNormalize_call cos_zen p else ret p.

Fixpoint normalize_percent_bands (cos_zen : Z → ndarray → ndarray → ndarray)
    (ps : list Band) : M (list Band) :=
  match ps with
  | [] => ret []
  | p :: ps' =>
      let* p' := normalize_if_percent cos_zen p in
      let* rest := normalize_percent_bands cos_zen ps' in
      ret (p' :: rest)
  end.

Definition SunCorrectedRGB_by_units (cos_zen : Z → ndarray → ndarray → ndarray)
    (self : CompositeBase) (ps : list Band) : M Composite :=
  let* ps' := normalize_percent_bands cos_zen ps in
  lift (RGBCompositor_call self ps').

(** ** Sample inputs *)

Definition sample_grid (x : Q) : MaskedArray :=
  mk_MaskedArray (1, 2) [[Some x; None]].

Definition sample_band (x : Q) (sensor : value) : Band :=
  mk_Projectable (sample_grid x)
    {[ "name" := VStr "band"; "sensor" := sensor; "units" := VStr "K" ]}.

Definition sample_self : CompositeBase :=
  mk_CompositeBase {[ "name" := VStr "overview"; "compositor" := VStr "rgb" ]}.

Definition sample_self_sensor : CompositeBase :=
  mk_CompositeBase {[ "name" := VStr "overview"; "sensor" := VStr "C" ]}.

Definition sample_area (nm : string) : AreaDefinition :=
  mk_AreaDefinition nm
    (mk_ndarray (1, 2) [[0%Q; 3%Q]], mk_ndarray (1, 2) [[50%Q; 50%Q]]).

(** A stand-in for [cos_zen]: the cosine falls from 1 at longitude 0 to 0
    at longitude 3. *)
Definition sample_cos_zen (t : Z) (lons lats : ndarray) : ndarray :=
  mk_ndarray (nshape lons) (map (map (λ lon, 1 - lon * (1 # 3))%Q) (nrows lons)).

Definition sample_sub_info (a b : gmap string value) : gmap string value := a.

Definition sample_full_grid (x y : Q) : MaskedArray :=
  mk_MaskedArray (1, 2) [[Some x; Some y]].

Definition sample_sun_band (x y : Q) (nm : string) (t : Z) : Band :=
  mk_Projectable (sample_full_grid x y)
    {[ "units" := VStr "%"; "start_time" := VTime t;
       "area" := VArea (sample_area nm); "sensor" := VStr "A" ]}.

Definition empty_world : world := mk_world ∅ [] ∅.

Definition sample_bands : list Band :=
  [sample_sun_band 4 5 "euro" 0; sample_band 7 (VStr "A");
   sample_sun_band 8 9 "euro" 0].

Definition sample_world : world :=
  mk_world ∅ [] {[ 0 := PyList sample_bands; 1 := PyTuple sample_bands ]}.

(** ** CompositeBase.__init__ *)

(** A prerequisite of a composite: a wavelength, when the token reads as a
    number, or the name of a band.  [F] is the type of Python's floats,
    infinities and [nan] included. *)
Inductive prerequisite (F : Type) :=
| ByWavelength (x : F)
| ByName (s : string).
Arguments ByWavelength {F} x.
Arguments ByName {F} s.

(** What the [info] of a composite holds: a plain value or the list of
    prerequisites. *)
Inductive attribute (F : Type) :=
| Plain (v : value)
| Prerequisites (l : list (prerequisite F)).
Arguments Plain {F} v.
Arguments Prerequisites {F} l.

(** [s.split(",")]: the pieces between the commas, the empty ones too. *)
Fixpoint split_comma (s : string) : list string :=
  match s with
  | EmptyString => [EmptyString]
  | String c s' =>
      if Ascii.eqb c ","%char
      then EmptyString :: split_comma s'
      else match split_comma s' with
           | token :: tokens => String c token :: tokens
           | [] => [String c EmptyString]
           end
  end.

(** [d.setdefault(key, v)], for its effect on [d]. *)
Definition setdefault {F} (key : string) (v : attribute F)
    (d : gmap string (attribute F)) : gmap string (attribute F) :=
  match d !! key with
  | Some _ => d
  | None => <[key := v]> d
  end.

(** [kwargs["prerequisites"].append(p)] *)
Definition append_prerequisite {F} (kwargs : gmap string (attribute F))
    (p : prerequisite F) : gmap string (attribute F) :=
  match kwargs !! "prerequisites" with
  | Some (Prerequisites l) => <["prerequisites" := Prerequisites (l ++ [p])]> kwargs
  | _ => kwargs
  end.

(** [self.info["prerequisites"]], the property [prerequisites]. *)
Definition CompositeBase_prerequisites {F} (self_info : gmap string (attribute F))
  : result (attribute F) :=
  match self_info !! "prerequisites" with
  | Some a => Ok a
  | None => Err (KeyError "prerequisites")
  end.

Section Init.

(** Python's [float] on a string, into the type [F] of the floats: [None]
    stands for [ValueError]. *)
Context {F : Type} (float : string → option F).

(** The body of the loop over the tokens: the number when [float] reads
    one, the token itself otherwise. *)
Definition read_prerequisite (token : string) : prerequisite F :=
  match float token with
  | Some x => ByWavelength x
  | None => ByName token
  end.

(** [CompositeBase.__init__], for the [info] it leaves.  Modelled from the
    spec: [InfoObject.__init__], of the absent module [mpop.projectable],
    keeps its keyword arguments as [self.info]. *)
Definition CompositeBase_init (name compositor : value) (prerequisites : string)
    (default_image_config : option (gmap string (attribute F)))
    (kwargs : gmap string (attribute F)) : gmap string (attribute F) :=
  let kwargs1 := <["name" := Plain name]> kwargs in
  let kwargs2 := <["compositor" := Plain compositor]> kwargs1 in
  let kwargs3 := <["prerequisites" := Prerequisites []]> kwargs2 in
  let kwargs4 :=
    foldl (λ kw token, append_prerequisite kw (read_prerequisite token))
      kwargs3 (split_comma prerequisites) in
  match default_image_config with
  | None => kwargs4
  | Some config => map_fold setdefault kwargs4 config
  end.

End Init.

(** What a call working on the sequence behind [r] may change of a world:
    cached grids stay, the record of calls of [cos_zen] only grows, the
    other sequences stay, and the sequence behind [r] stays a tuple with
    its items or a list of its length. *)
Definition world_extends (r : nat) (w w' : world) : Prop :=
  (∀ k g, coszen w !! k = Some g → coszen w' !! k = Some g)
  ∧ cos_zen_calls w `prefix_of` cos_zen_calls w'
  ∧ (∀ r', r' ≠ r → heap w' !! r' = heap w !! r')
  ∧ (heap w !! r = None → heap w' !! r = None)
  ∧ (∀ items, heap w !! r = Some (PyTuple items) →
       heap w' !! r = Some (PyTuple items))
  ∧ (∀ items, heap w !! r = Some (PyList items) →
       ∃ items', heap w' !! r = Some (PyList items')
                 ∧ length items' = length items).

(** The number of commas of a string. *)
Fixpoint count_commas (s : string) : nat :=
  match s with
  | EmptyString => 0
  | String c s' => (if Ascii.eqb c ","%char then 1 else 0) + count_commas s'
  end.

(** [",".join(tokens)] *)
Definition join_comma (tokens : list string) : string := String.concat "," tokens.

(** A stand-in for [float], with rationals for floats, that reads the two
    numbers "0.6" and "10.8". *)
Definition sample_float (s : string) : option Q :=
  if String.eqb s "0.6" then Some (6 # 10)%Q
  else if String.eqb s "10.8" then Some (108 # 10)%Q
  else None.

(** A band of another shape than the sample bands. *)
Definition sample_tall_band : Band :=
  mk_Projectable (mk_MaskedArray (2, 1) [[Some 1%Q]; [Some 2%Q]]) ∅.

(** A band whose metadata has a key [data]. *)
Definition sample_data_band : Band :=
  mk_Projectable (sample_grid 1) {[ "data" := VNone ]}.

(** An area of the same name as [sample_area], with other longitudes. *)
Definition sample_area_shifted (nm : string) : AreaDefinition :=
  mk_AreaDefinition nm
    (mk_ndarray (1, 2) [[3%Q; 0%Q]], mk_ndarray (1, 2) [[50%Q; 50%Q]]).

Definition sample_shifted_band (x y : Q) (nm : string) (t : Z) : Band :=
  mk_Projectable (sample_full_grid x y)
    {[ "units" := VStr "%"; "start_time" := VTime t;
       "area" := VArea (sample_area_shifted nm) ]}.

(** A band in "%" without [start_time]. *)
Definition sample_untimed_band : Band :=
  mk_Projectable (sample_full_grid 1 1) {[ "units" := VStr "%" ]}.

Definition sample_plain_bands : list Band :=
  [sample_band 1 (VStr "A"); sample_band 2 (VStr "B"); sample_band 3 VNone].

Definition sample_two_bands : list Band :=
  [sample_sun_band 4 5 "euro" 0; sample_sun_band 8 9 "euro" 0].

Definition sample_failing_bands : list Band :=
  [sample_sun_band 4 5 "euro" 0; sample_untimed_band;
   sample_sun_band 8 9 "euro" 0].

Definition sample_world_more : world :=
  mk_world ∅ []
    {[ 0 := PyTuple sample_plain_bands; 1 := PyList sample_two_bands;
       2 := PyList sample_failing_bands ]}.

(** * Stacking *)

Lemma zip3_row (la lb lc : list cell) :
  length la = length lb → length lb = length lc →
  let depth := zip_with app (zip_with app (map (λ c, [c]) la) (map (λ c, [c]) lb))
                 (map (λ c, [c]) lc) in
  map (λ v, nth 0 v None) depth = la
  ∧ map (λ v, nth 1 v None) depth = lb
  ∧ map (λ v, nth 2 v None) depth = lc.
Proof.
  revert lb lc. induction la as [|a la IH]; intros [|b lb] [|c lc]; simpl;
    try discriminate; auto.
  intros Hab Hbc. injection Hab as Hab. injection Hbc as Hbc.
  destruct (IH lb lc Hab Hbc) as (-> & -> & ->). done.
Qed.

Lemma zip3_rows (w : nat) (ra rb rc : list (list cell)) :
  length ra = length rb → length rb = length rc →
  Forall (λ r, length r = w) ra → Forall (λ r, length r = w) rb →
  Forall (λ r, length r = w) rc →
  let depth := zip_with (zip_with app)
                 (zip_with (zip_with app) (map (map (λ c, [c])) ra)
                    (map (map (λ c, [c])) rb))
                 (map (map (λ c, [c])) rc) in
  map (map (λ v, nth 0 v None)) depth = ra
  ∧ map (map (λ v, nth 1 v None)) depth = rb
  ∧ map (map (λ v, nth 2 v None)) depth = rc.
Proof.
  revert rb rc. induction ra as [|a ra IH]; intros [|b rb] [|c rc]; simpl;
    try discriminate; auto.
  intros Hab Hbc Ha Hb Hc. injection Hab as Hab. injection Hbc as Hbc.
  apply Forall_cons in Ha as [Ha Hra]. apply Forall_cons in Hb as [Hb Hrb].
  apply Forall_cons in Hc as [Hc Hrc].
  destruct (IH rb rc Hab Hbc Hra Hrb Hrc) as (-> & -> & ->).
  destruct (zip3_row a b c) as (-> & -> & ->); [congruence..|done].
Qed.

Lemma dstack_rollaxis_three (a b c : MaskedArray) (h w : nat) :
  shape a = (h, w) → shape b = (h, w) → shape c = (h, w) →
  wf_array a → wf_array b → wf_array c →
  rbind (np.dstack [a; b; c]) (λ s, Ok (np.rollaxis2 s))
  = Ok {| shape3 := (3, h, w); planes := [rows a; rows b; rows c] |}.
Proof.
  destruct a as [sa ra], b as [sb rb], c as [sc rc]. unfold wf_array, wf_rows.
  simpl. intros -> -> -> [Hla Ha] [Hlb Hb] [Hlc Hc]. simpl in *.
  unfold np.dstack, np.concatenate2. simpl.
  repeat (rewrite !Nat.eqb_refl; simpl). unfold np.rollaxis2. simpl.
  destruct (zip3_rows w ra rb rc) as (-> & -> & ->); [congruence..|done].
Qed.

(** * The RGB compositor *)

Lemma RGBCompositor_call_three self (p0 p1 p2 : Band) :
  RGBCompositor_call self [p0; p1; p2]
  = rbind (np.dstack [data p0; data p1; data p2]) (λ stacked,
    rbind (collect_sensors [p0; p1; p2]) (λ sensor,
    Projectable_init (np.rollaxis2 stacked) (merged_info self p0 p1 p2 sensor))).
Proof. reflexivity. Qed.

Lemma sensor_step_ok (sensor : gset string) (p : Band) :
  sensor_ok p → sensor_step sensor p = Ok (sensor ∪ band_sensors p).
Proof.
  unfold sensor_ok, sensor_step, band_sensors.
  destruct (dict_get (info p) "sensor") as [|s|s| | |]; simpl; try done; intros _.
  - by rewrite (right_id_L ∅ (∪)).
  - destruct (String.eqb s ""); simpl.
    + by rewrite (right_id_L ∅ (∪)).
    + by rewrite (comm_L (∪)).
  - case_bool_decide as Hs; simpl; [|done]. subst s. by rewrite (right_id_L ∅ (∪)).
Qed.

Lemma collect_sensors_from (l : list Band) (acc : gset string) :
  Forall sensor_ok l →
  foldl (λ acc p, rbind acc (λ sensor, sensor_step sensor p)) (Ok acc) l
  = Ok (acc ∪ ⋃ (band_sensors <$> l)).
Proof.
  revert acc. induction l as [|p l IH]; intros acc Hl; simpl.
  - by rewrite (right_id_L ∅ (∪)).
  - apply Forall_cons in Hl as [Hp Hl]. rewrite sensor_step_ok by done.
    rewrite IH by done. by rewrite (assoc_L (∪)).
Qed.

Lemma collect_sensors_ok (l : list Band) :
  Forall sensor_ok l → collect_sensors l = Ok (⋃ (band_sensors <$> l)).
Proof.
  intros Hl. unfold collect_sensors. rewrite collect_sensors_from by done.
  by rewrite (left_id_L ∅ (∪)).
Qed.

Lemma collect_sensors_err (l : list Band) (e : exn) :
  collect_sensors l = Err e → ∃ msg, e = TypeError msg.
Proof.
  unfold collect_sensors.
  assert (Hacc : ∀ e', Ok (A:=gset string) ∅ = Err e' → ∃ msg, e' = TypeError msg)
    by done.
  revert Hacc. generalize (Ok (A:=gset string) ∅).
  induction l as [|p l IH]; intros acc Hacc; simpl; [by apply Hacc|].
  apply IH. intros e'. destruct acc as [sensor|e0]; simpl; [|by apply Hacc].
  unfold sensor_step. destruct (truthy _); [|done].
  destruct (dict_get _ _); try done; intros [= <-]; eauto.
Qed.

Lemma dstack_three_err (a b c : MaskedArray) (e : exn) :
  np.dstack [a; b; c] = Err e → e = ValueError np.concatenate_shape_msg.
Proof.
  unfold np.dstack, np.concatenate2. simpl.
  destruct (_ && _); simpl; [|by intros [= <-]].
  destruct (_ && _); simpl; [done|by intros [= <-]].
Qed.

Lemma expected_msg_inj (n m : nat) : expected_msg n = expected_msg m → n = m.
Proof.
  unfold expected_msg. intros H. apply (inj (String.app _)) in H.
  by apply (inj pretty) in H.
Qed.

Lemma RGBCompositor_call_data self (p0 p1 p2 : Band) (h w : nat) :
  shape (data p0) = (h, w) → shape (data p1) = (h, w) →
  shape (data p2) = (h, w) →
  wf_array (data p0) → wf_array (data p1) → wf_array (data p2) →
  rbind (np.dstack (map data [p0; p1; p2])) (λ s, Ok (np.rollaxis2 s))
    = Ok (stack3 p0 p1 p2 h w)
  ∧ (∀ out, RGBCompositor_call self [p0; p1; p2] = Ok out →
       data out = stack3 p0 p1 p2 h w).
Proof.
  intros H0 H1 H2 W0 W1 W2.
  pose proof (dstack_rollaxis_three _ _ _ h w H0 H1 H2 W0 W1 W2) as Hst.
  split; [exact Hst|]. rewrite RGBCompositor_call_three.
  destruct (np.dstack _) as [stacked|e]; [|done]. simpl in Hst.
  injection Hst as Hst. simpl.
  intros out Hout. destruct (collect_sensors _) as [sensor|e]; [|done].
  simpl in Hout. unfold Projectable_init in Hout.
  destruct (_ !! "data"); [done|]. injection Hout as <-. simpl.
  rewrite Hst. done.
Qed.

Lemma RGBCompositor_call_returns self (p0 p1 p2 : Band) (h w : nat) :
  shape (data p0) = (h, w) → shape (data p1) = (h, w) →
  shape (data p2) = (h, w) →
  wf_array (data p0) → wf_array (data p1) → wf_array (data p2) →
  Forall sensor_ok [p0; p1; p2] →
  info p0 !! "data" = None → info p1 !! "data" = None →
  info p2 !! "data" = None → composite_info self !! "data" = None →
  ∃ out, RGBCompositor_call self [p0; p1; p2] = Ok out
         ∧ data out = stack3 p0 p1 p2 h w.
Proof.
  intros H0 H1 H2 W0 W1 W2 Hs D0 D1 D2 Ds.
  destruct (RGBCompositor_call_data self p0 p1 p2 h w H0 H1 H2 W0 W1 W2)
    as [Hst Hdata].
  assert (Hex : ∃ out, RGBCompositor_call self [p0; p1; p2] = Ok out).
  { rewrite RGBCompositor_call_three.
    simpl in Hst. destruct (np.dstack _) as [stacked|e]; [|done]. simpl.
    rewrite collect_sensors_ok by done. simpl.
    unfold Projectable_init, merged_info, setitem, pop, update.
    rewrite !lookup_insert_ne, !lookup_delete_ne, !lookup_union by done.
    rewrite D0, D1, D2, Ds. simpl. eauto. }
  destruct Hex as [out Hout]. exists out. split; [done|]. by apply Hdata.
Qed.

(** C1: three well-formed bands of one shape (H, W) are stacked into one
    array of shape (3, H, W) whose planes are the bands in the order given,
    masked cells included; the stacking itself never fails, every composite
    returned carries that array, and one is returned whenever the metadata
    is well-formed (sensors are strings or sets, no key [data]). *)
Theorem C1_rgb_stacks_bands_in_order self (p0 p1 p2 : Band) (h w : nat) :
  shape (data p0) = (h, w) → shape (data p1) = (h, w) →
  shape (data p2) = (h, w) →
  wf_array (data p0) → wf_array (data p1) → wf_array (data p2) →
  rbind (np.dstack (map data [p0; p1; p2])) (λ s, Ok (np.rollaxis2 s))
    = Ok (stack3 p0 p1 p2 h w)
  ∧ (∀ out, RGBCompositor_call self [p0; p1; p2] = Ok out →
       data out = stack3 p0 p1 p2 h w
       ∧ shape3 (data out) = (3, h, w)
       ∧ ∀ i j, getitem3 (data out) 0 i j = getitem (data p0) i j
                ∧ getitem3 (data out) 1 i j = getitem (data p1) i j
                ∧ getitem3 (data out) 2 i j = getitem (data p2) i j)
  ∧ (Forall sensor_ok [p0; p1; p2] →
     info p0 !! "data" = None → info p1 !! "data" = None →
     info p2 !! "data" = None → composite_info self !! "data" = None →
     ∃ out, RGBCompositor_call self [p0; p1; p2] = Ok out).
Proof.
  intros H0 H1 H2 W0 W1 W2.
  destruct (RGBCompositor_call_data self p0 p1 p2 h w H0 H1 H2 W0 W1 W2)
    as [Hst Hdata].
  split; [exact Hst|]. split.
  - intros out Hout. rewrite (Hdata out Hout). done.
  - intros Hs D0 D1 D2 Ds. rewrite RGBCompositor_call_three.
    simpl in Hst. destruct (np.dstack _) as [stacked|e]; [|done]. simpl.
    rewrite collect_sensors_ok by done. simpl.
    unfold Projectable_init, merged_info, setitem, pop, update.
    rewrite !lookup_insert_ne, !lookup_delete_ne, !lookup_union by done.
    rewrite D0, D1, D2, Ds. simpl. eauto.
Qed.

(** C2: with any number of bands other than 3 the compositor raises
    [ValueError] with the message "Expected 3 projectables, got N", N the
    number given, which the message determines; with exactly 3 bands no
    such error is raised. *)
Theorem C2_rgb_checks_band_count self (projectables : list Band) :
  (length projectables ≠ 3 →
   RGBCompositor_call self projectables
   = Err (ValueError ("Expected 3 projectables, got " +:+ pretty (length projectables))))
  ∧ (length projectables = 3 →
     ∀ n, RGBCompositor_call self projectables ≠ Err (ValueError (expected_msg n)))
  ∧ (∀ n m, expected_msg n = expected_msg m → n = m).
Proof.
  split; [|split].
  - intros Hn. unfold RGBCompositor_call.
    destruct (Nat.eqb_spec (length projectables) 3); [done|]. reflexivity.
  - intros Hn n.
    destruct projectables as [|p0 [|p1 [|p2 [|? ?]]]]; try discriminate Hn.
    rewrite RGBCompositor_call_three.
    destruct (np.dstack _) as [stacked|e] eqn:Hd; simpl.
    + destruct (collect_sensors _) as [sensor|e] eqn:Hc; simpl.
      * unfold Projectable_init. by destruct (_ !! "data").
      * apply collect_sensors_err in Hc as [msg ->]. done.
    + apply dstack_three_err in Hd as ->. unfold expected_msg. simpl. done.
  - apply expected_msg_inj.
Qed.

Lemma RGBCompositor_call_info self (p0 p1 p2 : Band) (out : Composite) :
  RGBCompositor_call self [p0; p1; p2] = Ok out →
  ∃ sensor, collect_sensors [p0; p1; p2] = Ok sensor
            ∧ info out = merged_info self p0 p1 p2 sensor.
Proof.
  rewrite RGBCompositor_call_three.
  destruct (np.dstack _) as [stacked|e]; [|done]. simpl.
  destruct (collect_sensors _) as [sensor|e]; [|done]. simpl.
  unfold Projectable_init. destruct (_ !! "data"); [done|].
  intros [= <-]. eauto.
Qed.

Lemma merged_info_lookup self (p0 p1 p2 : Band) sensor (k : string) :
  k ≠ "mode" → k ≠ "sensor" → k ≠ "units" → k ≠ "wavelength_range" →
  merged_info self p0 p1 p2 sensor !! k = overlay_lookup self p0 p1 p2 k.
Proof.
  intros Hm Hs Hu Hw. unfold merged_info, overlay_lookup, setitem, pop, update.
  rewrite !lookup_insert_ne, !lookup_delete_ne, !lookup_union by done.
  destruct (composite_info self !! k), (info p2 !! k), (info p1 !! k),
    (info p0 !! k); done.
Qed.

(** C3, as stated, fails: for a compositor whose own metadata has sensor
    "C" and bands of sensors "A", "A" and "B", the metadata of the
    composite is not the overlay with [wavelength_range] and [units]
    removed and [mode] set: its [sensor] is the set of the bands' sensors,
    neither the compositor's own value nor that of band 2. *)
Lemma C3_counterexample :
  ∃ out,
    RGBCompositor_call sample_self_sensor
      [sample_band 1 (VStr "A"); sample_band 2 (VStr "A"); sample_band 3 (VStr "B")]
    = Ok out
    ∧ info out ≠ overlaid_info sample_self_sensor (sample_band 1 (VStr "A"))
                   (sample_band 2 (VStr "A")) (sample_band 3 (VStr "B"))
    ∧ composite_info sample_self_sensor !! "sensor" = Some (VStr "C")
    ∧ info (sample_band 3 (VStr "B")) !! "sensor" = Some (VStr "B")
    ∧ info out !! "sensor" = Some (VSet {[ "A"; "B" ]}).
Proof.
  eexists. split; [vm_compute; reflexivity|]. split; [|split; [|split]].
  - intros H. apply (f_equal (λ m, m !! "sensor")) in H. vm_compute in H.
    discriminate H.
  - vm_compute. reflexivity.
  - vm_compute. reflexivity.
  - vm_compute. reflexivity.
Qed.

(** C3, amended: the metadata of every composite returned is the metadata
    of band 0 overlaid by that of band 1, of band 2 and of the compositor,
    then without [wavelength_range] and [units], with [sensor] set to the
    collapsed set of the bands' sensors and [mode] set to "RGB"; at every
    other key the compositor's own value comes first, then the value of
    band 2, of band 1 and of band 0. *)
Theorem C3_rgb_metadata self (p0 p1 p2 : Band) (out : Composite) :
  RGBCompositor_call self [p0; p1; p2] = Ok out →
  (∃ sensor, collect_sensors [p0; p1; p2] = Ok sensor
     ∧ info out = <["sensor" := collapse_sensor sensor]>
                    (overlaid_info self p0 p1 p2)
     ∧ info out !! "sensor" = Some (collapse_sensor sensor))
  ∧ info out !! "wavelength_range" = None
  ∧ info out !! "units" = None
  ∧ info out !! "mode" = Some (VStr "RGB")
  ∧ (∀ k, k ≠ "mode" → k ≠ "sensor" → k ≠ "units" → k ≠ "wavelength_range" →
       info out !! k = overlay_lookup self p0 p1 p2 k)
  ∧ (∀ k v, k ≠ "mode" → k ≠ "sensor" → k ≠ "units" → k ≠ "wavelength_range" →
       composite_info self !! k = Some v → info out !! k = Some v)
  ∧ (∀ k v, k ≠ "mode" → k ≠ "sensor" → k ≠ "units" → k ≠ "wavelength_range" →
       composite_info self !! k = None → info p2 !! k = Some v →
       info out !! k = Some v).
Proof.
  intros Hout. apply RGBCompositor_call_info in Hout as (sensor & Hs & ->).
  split; [|split; [|split; [|split; [|split; [|split]]]]].
  - exists sensor. split; [done|]. split.
    + unfold merged_info, overlaid_info, setitem.
      apply insert_insert_ne. done.
    + unfold merged_info, setitem. rewrite lookup_insert_ne by done.
      apply lookup_insert_eq.
  - unfold merged_info, setitem, pop.
    rewrite !lookup_insert_ne, lookup_delete_ne by done. apply lookup_delete_eq.
  - unfold merged_info, setitem, pop.
    rewrite !lookup_insert_ne by done. apply lookup_delete_eq.
  - unfold merged_info, setitem. apply lookup_insert_eq.
  - intros k ????. by apply merged_info_lookup.
  - intros k v ???? Hk. rewrite merged_info_lookup by done.
    unfold overlay_lookup. by rewrite Hk.
  - intros k v ???? Hk H2. rewrite merged_info_lookup by done.
    unfold overlay_lookup. by rewrite Hk, H2.
Qed.

Lemma collapse_sensor_empty : collapse_sensor ∅ = VNone.
Proof. unfold collapse_sensor. by rewrite elements_empty. Qed.

Lemma collapse_sensor_singleton (s : string) : collapse_sensor {[ s ]} = VStr s.
Proof. unfold collapse_sensor. by rewrite elements_singleton. Qed.

Lemma collapse_sensor_many (sensor : gset string) :
  2 ≤ size sensor → collapse_sensor sensor = VSet sensor.
Proof.
  unfold collapse_sensor, size, set_size. simpl.
  destruct (elements sensor) as [|x [|y l]]; simpl; [lia..|done].
Qed.

(** C4, as stated, fails: a band whose sensor is the empty string and two
    bands without a sensor give a set of one string when every sensor is
    collected, so the claim has the merged sensor be that string; the
    compositor skips the empty string and gives [None]. *)
Lemma C4_counterexample :
  ∃ out,
    RGBCompositor_call sample_self
      [sample_band 1 (VStr ""); sample_band 2 VNone; sample_band 3 VNone]
    = Ok out
    ∧ collapse_sensor
        (band_sensors_all (sample_band 1 (VStr ""))
         ∪ band_sensors_all (sample_band 2 VNone)
         ∪ band_sensors_all (sample_band 3 VNone)) = VStr ""
    ∧ info out !! "sensor" = Some VNone.
Proof.
  eexists. split; [vm_compute; reflexivity|]. split; vm_compute; reflexivity.
Qed.

(** C4, amended: for three bands whose sensor is absent, [None], a string
    or a set of strings, the sensors collected are the non-empty strings
    and the members of the sets; the [sensor] of every composite returned
    is [None] when that set is empty, the string itself when it holds one
    string, and the set when it holds two or more. *)
Theorem C4_rgb_sensor self (p0 p1 p2 : Band) :
  Forall sensor_ok [p0; p1; p2] →
  let sensor := band_sensors p0 ∪ band_sensors p1 ∪ band_sensors p2 in
  collect_sensors [p0; p1; p2] = Ok sensor
  ∧ (∀ out, RGBCompositor_call self [p0; p1; p2] = Ok out →
       info out !! "sensor" = Some (collapse_sensor sensor))
  ∧ (sensor = ∅ → collapse_sensor sensor = VNone)
  ∧ (∀ s, sensor = {[ s ]} → collapse_sensor sensor = VStr s)
  ∧ (2 ≤ size sensor → collapse_sensor sensor = VSet sensor).
Proof.
  intros Hs sensor.
  assert (Hc : collect_sensors [p0; p1; p2] = Ok sensor).
  { rewrite collect_sensors_ok by done. simpl.
    rewrite (right_id_L ∅ (∪)), (assoc_L (∪)). done. }
  split; [done|]. split; [|split; [|split]].
  - intros out Hout. apply RGBCompositor_call_info in Hout as (s' & Hs' & ->).
    rewrite Hc in Hs'. injection Hs' as <-.
    unfold merged_info, setitem. rewrite lookup_insert_ne by done.
    apply lookup_insert_eq.
  - intros ->. apply collapse_sensor_empty.
  - intros s ->. apply collapse_sensor_singleton.
  - apply collapse_sensor_many.
Qed.

(** The two examples of the spec: sensors {"A"}, {"A"}, {} give the string
    "A"; sensors {"A"}, {"B"}, {} give the set of both. *)
Example rgb_sensor_examples :
  rbind (RGBCompositor_call sample_self
           [sample_band 1 (VSet {[ "A" ]}); sample_band 2 (VSet {[ "A" ]});
            sample_band 3 (VSet ∅)]) (λ out, Ok (info out !! "sensor"))
  = Ok (Some (VStr "A"))
  ∧ rbind (RGBCompositor_call sample_self
             [sample_band 1 (VSet {[ "A" ]}); sample_band 2 (VSet {[ "B" ]});
              sample_band 3 (VSet ∅)]) (λ out, Ok (info out !! "sensor"))
    = Ok (Some (VSet {[ "A"; "B" ]})).
Proof. split; vm_compute; reflexivity. Qed.

(** * Element-wise arithmetic *)

Lemma shape_eqb_refl (s : nat * nat) : shape_eqb s s = true.
Proof. unfold shape_eqb. by rewrite !Nat.eqb_refl. Qed.

Lemma cell_op_None_r op (x : cell) : cell_op op x None = None.
Proof. by destruct x. Qed.

Lemma nth_zip_cells op (la lb : list cell) (j : nat) :
  nth j (zip_with (cell_op op) la lb) None
  = cell_op op (nth j la None) (nth j lb None).
Proof.
  revert lb j. induction la as [|x la IH]; intros [|y lb] [|j]; simpl;
    try done; by rewrite ?cell_op_None_r.
Qed.

Lemma zip_with_nil_r {A} (f : A → A → A) (l : list A) : zip_with f l [] = [].
Proof. by destruct l. Qed.

Lemma nth_zip_rows {A} (f : A → A → A) (ra rb : list (list A)) (i : nat) :
  nth i (zip_with (zip_with f) ra rb) []
  = zip_with f (nth i ra []) (nth i rb []).
Proof.
  revert rb i. induction ra as [|x ra IH]; intros [|y rb] [|i]; simpl;
    rewrite ?zip_with_nil_r; auto.
Qed.

Lemma wf_zip_rows {A} (f : A → A → A) (h w : nat) (ra rb : list (list A)) :
  wf_rows (h, w) ra → wf_rows (h, w) rb →
  wf_rows (h, w) (zip_with (zip_with f) ra rb).
Proof.
  unfold wf_rows. simpl. intros [Hla Ha] [Hlb Hb]. split.
  - rewrite length_zip_with. lia.
  - clear Hla Hlb. revert rb Hb.
    induction Ha as [|x ra Hx Ha IH]; intros [|y rb] Hb; simpl;
      try constructor.
    + apply Forall_cons in Hb as [Hy Hb]. rewrite length_zip_with. lia.
    + apply Forall_cons in Hb as [Hy Hb]. by apply IH.
Qed.

Lemma elementwise_ok op (a b : MaskedArray) (h w : nat) :
  shape a = (h, w) → shape b = (h, w) → wf_array a → wf_array b →
  ∃ c, elementwise op a b = Ok c
       ∧ shape c = (h, w) ∧ wf_array c
       ∧ ∀ i j, getitem c i j = cell_op op (getitem a i j) (getitem b i j).
Proof.
  unfold wf_array, elementwise. intros Ha Hb Wa Wb.
  rewrite Ha, Hb in *. rewrite shape_eqb_refl. eexists. split; [reflexivity|].
  simpl. split; [done|]. split; [by apply wf_zip_rows|].
  intros i j. unfold getitem. simpl. by rewrite nth_zip_rows, nth_zip_cells.
Qed.

Section Recipes.

Variable cos_zen : Z → ndarray → ndarray → ndarray.
Variable sub_info : gmap string value → gmap string value → gmap string value.

Lemma Projectable_sub_ok (a b : Band) (h w : nat) :
  shape (data a) = (h, w) → shape (data b) = (h, w) →
  wf_array (data a) → wf_array (data b) →
  ∃ c, Projectable_sub sub_info a b = Ok c
       ∧ shape (data c) = (h, w) ∧ wf_array (data c)
       ∧ ∀ i j, getitem (data c) i j
                = cell_op Qminus (getitem (data a) i j) (getitem (data b) i j).
Proof.
  intros Ha Hb Wa Wb. unfold Projectable_sub.
  destruct (elementwise_ok Qminus _ _ h w Ha Hb Wa Wb) as (d & -> & ? & ? & ?).
  simpl. eauto.
Qed.

Lemma Projectable_sub_info (a b c : Band) :
  Projectable_sub sub_info a b = Ok c → info c = sub_info (info a) (info b).
Proof.
  unfold Projectable_sub. destruct (elementwise _ _ _); [|done].
  by intros [= <-].
Qed.

(** C8: given at least four bands A, B, C, D, the Airmass compositor
    hands the three channels A - B, C - D and A, in that order, to the
    RGB compositor.  When the four bands are well formed and of one shape
    (H, W), both differences exist, the stacking gives an array of shape
    (3, H, W), and in every composite returned plane 0 is A - B and
    plane 1 is C - D, cell by cell, masked where either operand is masked
    and the plain difference elsewhere, and plane 2 is A.  A composite is
    returned, and carries the stack of the three channels, whenever the
    metadata of the channels is well formed (sensors are strings or sets,
    no key [data]). *)
Theorem C8_airmass_channels self (A B C D : Band) (rest : list Band) (h w : nat) :
  Airmass_call sub_info self (A :: B :: C :: D :: rest)
  = rbind (Projectable_sub sub_info A B) (λ red,
    rbind (Projectable_sub sub_info C D) (λ green,
    RGBCompositor_call self [red; green; A]))
  ∧ (shape (data A) = (h, w) → shape (data B) = (h, w) →
     shape (data C) = (h, w) → shape (data D) = (h, w) →
     wf_array (data A) → wf_array (data B) →
     wf_array (data C) → wf_array (data D) →
     ∃ red green,
       Projectable_sub sub_info A B = Ok red
       ∧ Projectable_sub sub_info C D = Ok green
       ∧ info red = sub_info (info A) (info B)
       ∧ info green = sub_info (info C) (info D)
       ∧ rbind (np.dstack (map data [red; green; A])) (λ s, Ok (np.rollaxis2 s))
         = Ok (stack3 red green A h w)
       ∧ (∀ out, Airmass_call sub_info self (A :: B :: C :: D :: rest) = Ok out →
           shape3 (data out) = (3, h, w)
           ∧ ∀ i j,
               getitem3 (data out) 0 i j
               = cell_op Qminus (getitem (data A) i j) (getitem (data B) i j)
               ∧ getitem3 (data out) 1 i j
                 = cell_op Qminus (getitem (data C) i j) (getitem (data D) i j)
               ∧ getitem3 (data out) 2 i j = getitem (data A) i j)
       ∧ (Forall sensor_ok [red; green; A] →
          info red !! "data" = None → info green !! "data" = None →
          info A !! "data" = None → composite_info self !! "data" = None →
          ∃ out, Airmass_call sub_info self (A :: B :: C :: D :: rest) = Ok out
                 ∧ data out = stack3 red green A h w)).
Proof.
  split; [reflexivity|].
  intros HA HB HC HD WA WB WC WD.
  destruct (Projectable_sub_ok A B h w HA HB WA WB) as (red & Hr & Sr & Wr & Cr).
  destruct (Projectable_sub_ok C D h w HC HD WC WD) as (green & Hg & Sg & Wg & Cg).
  exists red, green. split; [done|]. split; [done|].
  split; [by apply Projectable_sub_info|].
  split; [by apply Projectable_sub_info|].
  destruct (RGBCompositor_call_data self red green A h w Sr Sg HA Wr Wg WA)
    as (Hst & Hout).
  split; [exact Hst|].
  assert (Hcall : Airmass_call sub_info self (A :: B :: C :: D :: rest)
                  = RGBCompositor_call self [red; green; A]).
  { unfold Airmass_call. simpl. rewrite Hr. simpl. by rewrite Hg. }
  rewrite Hcall. split.
  - intros out Ho. rewrite (Hout out Ho). split; [done|].
    intros i j. unfold getitem3. simpl. fold (getitem (data red) i j).
    fold (getitem (data green) i j). by rewrite Cr, Cg.
  - intros Hs Dr Dg DA Ds.
    by apply (RGBCompositor_call_returns self red green A h w).
Qed.

(** C9: given at least three bands A, B, C, the Dust compositor hands the
    three channels C - B, B - A and B, in that order, to the RGB
    compositor.  When the three bands are well formed and of one shape
    (H, W), both differences exist, the stacking gives an array of shape
    (3, H, W), and in every composite returned plane 0 is C - B and
    plane 1 is B - A, cell by cell, masked where either operand is masked,
    and plane 2 is B.  A composite is returned, and carries the stack of
    the three channels, whenever the metadata of the channels is well
    formed (sensors are strings or sets, no key [data]). *)
Theorem C9_dust_channels self (A B C : Band) (rest : list Band) (h w : nat) :
  Dust_call sub_info self (A :: B :: C :: rest)
  = rbind (Projectable_sub sub_info C B) (λ red,
    rbind (Projectable_sub sub_info B A) (λ green,
    RGBCompositor_call self [red; green; B]))
  ∧ (shape (data A) = (h, w) → shape (data B) = (h, w) →
     shape (data C) = (h, w) →
     wf_array (data A) → wf_array (data B) → wf_array (data C) →
     ∃ red green,
       Projectable_sub sub_info C B = Ok red
       ∧ Projectable_sub sub_info B A = Ok green
       ∧ info red = sub_info (info C) (info B)
       ∧ info green = sub_info (info B) (info A)
       ∧ rbind (np.dstack (map data [red; green; B])) (λ s, Ok (np.rollaxis2 s))
         = Ok (stack3 red green B h w)
       ∧ (∀ out, Dust_call sub_info self (A :: B :: C :: rest) = Ok out →
           shape3 (data out) = (3, h, w)
           ∧ ∀ i j,
               getitem3 (data out) 0 i j
               = cell_op Qminus (getitem (data C) i j) (getitem (data B) i j)
               ∧ getitem3 (data out) 1 i j
                 = cell_op Qminus (getitem (data B) i j) (getitem (data A) i j)
               ∧ getitem3 (data out) 2 i j = getitem (data B) i j)
       ∧ (Forall sensor_ok [red; green; B] →
          info red !! "data" = None → info green !! "data" = None →
          info B !! "data" = None → composite_info self !! "data" = None →
          ∃ out, Dust_call sub_info self (A :: B :: C :: rest) = Ok out
                 ∧ data out = stack3 red green B h w)).
Proof.
  split; [reflexivity|].
  intros HA HB HC WA WB WC.
  destruct (Projectable_sub_ok C B h w HC HB WC WB) as (red & Hr & Sr & Wr & Cr).
  destruct (Projectable_sub_ok B A h w HB HA WB WA) as (green & Hg & Sg & Wg & Cg).
  exists red, green. split; [done|]. split; [done|].
  split; [by apply Projectable_sub_info|].
  split; [by apply Projectable_sub_info|].
  destruct (RGBCompositor_call_data self red green B h w Sr Sg HB Wr Wg WB)
    as (Hst & Hout).
  split; [exact Hst|].
  assert (Hcall : Dust_call sub_info self (A :: B :: C :: rest)
                  = RGBCompositor_call self [red; green; B]).
  { unfold Dust_call. simpl. rewrite Hr. simpl. by rewrite Hg. }
  rewrite Hcall. split.
  - intros out Ho. rewrite (Hout out Ho). split; [done|].
    intros i j. unfold getitem3. simpl. fold (getitem (data red) i j).
    fold (getitem (data green) i j). by rewrite Cr, Cg.
  - intros Hs Dr Dg DB Ds.
    by apply (RGBCompositor_call_returns self red green B h w).
Qed.

End Recipes.

(** * Masking the cosines *)

Lemma Qltb_lt (x y : Q) : Qltb x y = true ↔ (x < y)%Q.
Proof.
  unfold Qltb. rewrite negb_true_iff. split.
  - intros H. apply Qnot_le_lt. intros Hle. apply Qle_bool_iff in Hle. congruence.
  - intros H. destruct (Qle_bool y x) eqn:Hb; [|done].
    apply Qle_bool_iff in Hb. by apply Qlt_not_le in H.
Qed.

Lemma masked_outside_cell_None (x : Q) :
  np.masked_outside_cell (35 # 1000) 1 x = None ↔ (x < 35 # 1000 ∨ 1 < x)%Q.
Proof.
  unfold np.masked_outside_cell.
  change (Qltb 1 (35 # 1000)) with false. cbv iota beta.
  destruct (Qltb x (35 # 1000)) eqn:H1; simpl.
  - split; [|done]. intros _. left. by apply Qltb_lt.
  - destruct (Qltb 1 x) eqn:H2.
    + split; [|done]. intros _. right. by apply Qltb_lt.
    + split; [done|]. intros [H|H]; apply Qltb_lt in H; congruence.
Qed.

Lemma masked_outside_cell_Some (x : Q) :
  (35 # 1000 <= x)%Q → (x <= 1)%Q →
  np.masked_outside_cell (35 # 1000) 1 x = Some x.
Proof.
  intros Hlo Hhi.
  destruct (np.masked_outside_cell (35 # 1000) 1 x) as [y|] eqn:Hc.
  - unfold np.masked_outside_cell in Hc.
    change (Qltb 1 (35 # 1000)) with false in Hc. cbv iota beta in Hc.
    destruct (_ || _); [done|]. done.
  - apply masked_outside_cell_None in Hc as [H|H].
    + by apply Qlt_not_le in H.
    + by apply Qlt_not_le in H.
Qed.

Lemma getitem_masked_outside (x : ndarray) (v1 v2 : Q) (i j : nat) (q : Q) :
  ndarray_getitem x i j = Some q →
  getitem (np.masked_outside x v1 v2) i j = np.masked_outside_cell v1 v2 q.
Proof.
  unfold ndarray_getitem, getitem. simpl.
  destruct (nrows x !! i) as [row|] eqn:Hi; [|done]. simpl. intros Hj.
  rewrite (nth_lookup_Some _ i [] (map (np.masked_outside_cell v1 v2) row)).
  - apply nth_lookup_Some. by rewrite list_lookup_fmap, Hj.
  - by rewrite list_lookup_fmap, Hi.
Qed.

Lemma getitem_elementwise op (a b c : MaskedArray) (i j : nat) :
  elementwise op a b = Ok c →
  getitem c i j = cell_op op (getitem a i j) (getitem b i j).
Proof.
  unfold elementwise. destruct (shape_eqb _ _); [|done]. intros [= <-].
  unfold getitem. simpl. by rewrite nth_zip_rows, nth_zip_cells.
Qed.

Lemma Projectable_div_cell (p out : Band) (g : MaskedArray) (i j : nat) :
  Projectable_div p g = Ok out →
  getitem (data out) i j = cell_op Qdiv (getitem (data p) i j) (getitem g i j)
  ∧ info out = info p.
Proof.
  unfold Projectable_div.
  destruct (elementwise Qdiv (data p) g) as [d|e] eqn:Hd; [|done]. simpl.
  intros [= <-]. simpl. split; [|done]. by apply getitem_elementwise.
Qed.

Section Normalizer.

Variable cos_zen : Z → ndarray → ndarray → ndarray.

Lemma cache_key_Ok (p : Band) (key : Z * string) :
  cache_key p = Ok key →
  ∃ t a, info p !! "start_time" = Some (VTime t)
         ∧ info p !! "area" = Some (VArea a) ∧ key = (t, name a).
Proof.
  unfold cache_key, dict_getitem.
  destruct (info p !! "start_time") as [st|]; [|done]. simpl.
  destruct (info p !! "area") as [ar|]; [|done]. simpl.
  destruct ar; try done. simpl. destruct st; try done. simpl.
  intros [= <-]. eauto.
Qed.

Lemma SZN_key_err (p : Band) (e : exn) (w : world) :
  cache_key p = Err e → SunZenithNormalize_call cos_zen p w = (w, Err e).
Proof. intros H. unfold SunZenithNormalize_call, bind, lift. by rewrite H. Qed.

Lemma SZN_hit (p : Band) (key : Z * string) (g : MaskedArray) (w : world) :
  cache_key p = Ok key → coszen w !! key = Some g →
  SunZenithNormalize_call cos_zen p w = (w, Projectable_div p g).
Proof.
  intros Hk Hg. unfold SunZenithNormalize_call, bind, lift, cache_contains,
    cache_getitem, ret. rewrite Hk, Hg. simpl.
  by rewrite Hg.
Qed.

Lemma SZN_miss (p : Band) (t : Z) (a : AreaDefinition) (w : world) :
  info p !! "start_time" = Some (VTime t) → info p !! "area" = Some (VArea a) →
  coszen w !! (t, name a) = None →
  SunZenithNormalize_call cos_zen p w
  = (mk_world (<[(t, name a) := cosine_grid cos_zen t a]> (coszen w))
       (cos_zen_calls w ++ [(t, (get_lonlats a).1, (get_lonlats a).2)])
       (heap w),
     Projectable_div p (cosine_grid cos_zen t a)).
Proof.
  intros Ht Ha Hg. unfold SunZenithNormalize_call, bind, lift, cache_contains,
    cache_getitem, cache_setitem, call_cos_zen, ret, cache_key, dict_getitem.
  rewrite Ht, Ha. simpl. rewrite Hg. simpl.
  rewrite lookup_insert_eq. reflexivity.
Qed.

(** One call either leaves the world as it is, or computes the grid of a
    key that the cache did not hold and adds it. *)
Lemma SZN_step (p : Band) (w : world) :
  (SunZenithNormalize_call cos_zen p w).1 = w
  ∨ ∃ t a, cache_key p = Ok (t, name a)
           ∧ coszen w !! (t, name a) = None
           ∧ (SunZenithNormalize_call cos_zen p w).1
             = mk_world (<[(t, name a) := cosine_grid cos_zen t a]> (coszen w))
                 (cos_zen_calls w ++ [(t, (get_lonlats a).1, (get_lonlats a).2)])
                 (heap w).
Proof.
  destruct (cache_key p) as [key|e] eqn:Hk.
  - destruct (cache_key_Ok p key Hk) as (t & a & Ht & Ha & ->).
    destruct (coszen w !! (t, name a)) as [g|] eqn:Hg.
    + left. by rewrite (SZN_hit p _ g w Hk Hg).
    + right. exists t, a. by rewrite (SZN_miss p t a w Ht Ha Hg).
  - left. by rewrite (SZN_key_err p e w Hk).
Qed.

Lemma SZN_cache_mono (p : Band) (w : world) (k : Z * string) (g : MaskedArray) :
  coszen w !! k = Some g →
  coszen (SunZenithNormalize_call cos_zen p w).1 !! k = Some g.
Proof.
  intros Hk. destruct (SZN_step p w) as [->|(t & a & _ & Hn & ->)]; [done|].
  simpl. rewrite lookup_insert_ne; [done|]. intros <-. congruence.
Qed.

Lemma SZN_heap (p : Band) (w : world) :
  heap (SunZenithNormalize_call cos_zen p w).1 = heap w.
Proof. by destruct (SZN_step p w) as [->|(t & a & _ & _ & ->)]. Qed.





(** C6: cosines strictly below 0.035 or strictly above 1 are masked, the
    others are kept as they are, the bounds 0.035 and 1 themselves
    included; on a miss the grid cached is the grid of cosines so masked;
    and wherever the grid of cosines is masked, so is the band divided by
    it, which elsewhere holds the quotient (masked where the band is). *)
Theorem C6_cosines_masked_outside (p : Band) (t : Z) (a : AreaDefinition)
    (w : world) :
  info p !! "start_time" = Some (VTime t) → info p !! "area" = Some (VArea a) →
  coszen w !! (t, name a) = None →
  let cosines := cos_zen t (get_lonlats a).1 (get_lonlats a).2 in
  let grid := np.masked_outside cosines (35 # 1000) 1 in
  let w' := (SunZenithNormalize_call cos_zen p w).1 in
  let res := (SunZenithNormalize_call cos_zen p w).2 in
  coszen w' !! (t, name a) = Some grid
  ∧ res = Projectable_div p grid
  ∧ (shape (data p) = nshape cosines → ∃ out, res = Ok out)
  ∧ (∀ i j x, ndarray_getitem cosines i j = Some x →
       (getitem grid i j = None ↔ (x < 35 # 1000 ∨ 1 < x)%Q)
       ∧ ((35 # 1000 <= x)%Q → (x <= 1)%Q → getitem grid i j = Some x)
       ∧ ((x == 35 # 1000)%Q → getitem grid i j = Some x)
       ∧ ((x == 1)%Q → getitem grid i j = Some x))
  ∧ (∀ out i j, res = Ok out →
       getitem (data out) i j
       = cell_op Qdiv (getitem (data p) i j) (getitem grid i j)
       ∧ (getitem grid i j = None → getitem (data out) i j = None)).
Proof.
  intros Ht Ha Hn cosines grid w' res.
  unfold w', res. rewrite (SZN_miss p t a w Ht Ha Hn). simpl.
  fold cosines. change (cosine_grid cos_zen t a) with grid.
  split; [apply lookup_insert_eq|]. split; [done|]. split; [|split].
  - intros Hs. unfold Projectable_div, elementwise. simpl. rewrite Hs.
    rewrite shape_eqb_refl. simpl. eauto.
  - intros i j x Hx. unfold grid.
    rewrite (getitem_masked_outside _ _ _ i j x Hx).
    split; [apply masked_outside_cell_None|]. split; [|split].
    + apply masked_outside_cell_Some.
    + intros Hq. apply masked_outside_cell_Some; rewrite Hq; [apply Qle_refl|done].
    + intros Hq. apply masked_outside_cell_Some; rewrite Hq; [done|apply Qle_refl].
  - intros out i j Hout. destruct (Projectable_div_cell p out grid i j Hout) as [-> _].
    split; [done|]. intros ->. apply cell_op_None_r.
Qed.

End Normalizer.


(** * The sun-corrected compositor *)

Section SunCorrected.

Variable cos_zen : Z → ndarray → ndarray → ndarray.

Lemma with_heap_id (w : world) : with_heap (heap w) w = w.
Proof. by destruct w. Qed.

Lemma SZN_frame (p : Band) (h : gmap nat pyseq) (w : world) :
  SunZenithNormalize_call cos_zen p (with_heap h w)
  = (with_heap h (SunZenithNormalize_call cos_zen p w).1,
     (SunZenithNormalize_call cos_zen p w).2).
Proof.
  destruct (cache_key p) as [key|e] eqn:Hk.
  - destruct (cache_key_Ok p key Hk) as (t & a & Ht & Ha & ->).
    destruct (coszen w !! (t, name a)) as [g|] eqn:Hg.
    + rewrite (SZN_hit cos_zen p _ g w Hk Hg).
      by rewrite (SZN_hit cos_zen p _ g (with_heap h w) Hk Hg).
    + rewrite (SZN_miss cos_zen p t a w Ht Ha Hg).
      by rewrite (SZN_miss cos_zen p t a (with_heap h w) Ht Ha Hg).
  - by rewrite !(SZN_key_err cos_zen p e _ Hk).
Qed.

Lemma spec_correct_frame (p : Band) (h : gmap nat pyseq) (w : world) :
  spec_correct cos_zen p (with_heap h w)
  = (with_heap h (spec_correct cos_zen p w).1, (spec_correct cos_zen p w).2).
Proof.
  unfold spec_correct. destruct (units_is_percent p); [apply SZN_frame|done].
Qed.

Lemma spec_correct_all_frame (ps : list Band) (h : gmap nat pyseq) (w : world) :
  spec_correct_all cos_zen ps (with_heap h w)
  = (with_heap h (spec_correct_all cos_zen ps w).1, (spec_correct_all cos_zen ps w).2).
Proof.
  revert w. induction ps as [|p ps IH]; intros w; simpl; [done|].
  unfold bind. rewrite spec_correct_frame.
  destruct (spec_correct cos_zen p w) as [w1 [p'|e]]; simpl; [|done].
  rewrite IH. by destruct (spec_correct_all cos_zen ps w1) as [w2 [rest|e]].
Qed.

Lemma correct_loop_S (r i n : nat) (w : world) (s : pyseq) (p : Band) :
  heap w !! r = Some s → seq_items s !! i = Some p →
  correct_loop cos_zen r i (S n) w
  = if units_is_percent p then
      match SunZenithNormalize_call cos_zen p w with
      | (w1, Ok p') =>
          match store_item r i p' w1 with
          | (w2, Ok _) => correct_loop cos_zen r (S i) n w2
          | (w2, Err e) => (w2, Err e)
          end
      | (w1, Err e) => (w1, Err e)
      end
    else correct_loop cos_zen r (S i) n w.
Proof.
  intros Hr Hi. simpl. unfold bind at 1. unfold load. rewrite Hr, Hi.
  unfold bind at 1. destruct (units_is_percent p); [|done].
  unfold bind at 1. destruct (SunZenithNormalize_call cos_zen p w) as [w1 [p'|e]];
    [|done].
  by destruct (store_item r i p' w1) as [w2 [[]|e]].
Qed.

Lemma spec_correct_all_cons (p : Band) (ps : list Band) (w : world) :
  spec_correct_all cos_zen (p :: ps) w
  = match spec_correct cos_zen p w with
    | (w1, Ok p') =>
        match spec_correct_all cos_zen ps w1 with
        | (w2, Ok rest) => (w2, Ok (p' :: rest))
        | (w2, Err e) => (w2, Err e)
        end
    | (w1, Err e) => (w1, Err e)
    end.
Proof.
  simpl. unfold bind. destruct (spec_correct cos_zen p w) as [w1 [p'|e]]; [|done].
  by destruct (spec_correct_all cos_zen ps w1) as [w2 [rest|e]].
Qed.

Lemma correct_loop_list (r : nat) (todo done : list Band) (w : world) :
  heap w !! r = Some (PyList (done ++ todo)) →
  ∃ h',
    correct_loop cos_zen r (length done) (length todo) w
    = (with_heap h' (spec_correct_all cos_zen todo w).1,
       match (spec_correct_all cos_zen todo w).2 with
       | Ok _ => Ok tt
       | Err e => Err e
       end)
    ∧ ∀ todo', (spec_correct_all cos_zen todo w).2 = Ok todo' →
               h' = <[r := PyList (done ++ todo')]> (heap w).
Proof.
  revert done w. induction todo as [|p todo IH]; intros done w Hr.
  - exists (heap w). simpl. rewrite with_heap_id. split; [done|].
    intros todo' [= <-]. by rewrite insert_id.
  - change (length (p :: todo)) with (S (length todo)).
    rewrite (correct_loop_S r _ _ w _ p Hr) by apply list_lookup_middle, eq_refl.
    rewrite spec_correct_all_cons. unfold spec_correct.
    destruct (units_is_percent p) eqn:Hp.
    + destruct (SunZenithNormalize_call cos_zen p w) as [w1 [p'|e]] eqn:Hn.
      * assert (Hh : heap w1 = heap w).
        { change w1 with (w1, Ok (A:=Band) p').1. rewrite <- Hn. apply SZN_heap. }
        unfold store_item. rewrite Hh, Hr.
        rewrite bool_decide_eq_true_2 by (rewrite length_app; simpl; lia).
        rewrite (insert_app_r_alt _ _ (length done)) by lia.
        rewrite Nat.sub_diag. simpl.
        set (h1 := <[r := PyList (done ++ p' :: todo)]> (heap w)).
        change (mk_world (coszen w1) (cos_zen_calls w1) h1) with (with_heap h1 w1).
        destruct (IH (done ++ [p']) (with_heap h1 w1)) as (h' & Hl & Hh').
        { simpl. unfold h1. rewrite lookup_insert_eq. by rewrite <- app_assoc. }
        rewrite length_app, Nat.add_1_r in Hl. rewrite Hl.
        rewrite spec_correct_all_frame in Hh' |- *. simpl in Hh' |- *. exists h'.
        destruct (spec_correct_all cos_zen todo w1) as [w2 [rest|e]]; simpl in *.
        -- split; [done|]. intros todo' [= <-]. rewrite (Hh' rest eq_refl).
           unfold h1. rewrite insert_insert_eq. by rewrite <- app_assoc.
        -- split; done.
      * exists (heap w1). rewrite with_heap_id. simpl. split; done.
    + destruct (IH (done ++ [p]) w) as (h' & Hl & Hh').
      { by rewrite <- app_assoc. }
      rewrite length_app, Nat.add_1_r in Hl. rewrite Hl.
      unfold ret. exists h'.
      destruct (spec_correct_all cos_zen todo w) as [w2 [rest|e]]; simpl in *.
      * split; [done|]. intros todo' [= <-]. rewrite (Hh' rest eq_refl).
        by rewrite <- app_assoc.
      * split; done.
Qed.

Lemma SunCorrectedRGB_spec_unfold self (l : list Band) (w : world) :
  SunCorrectedRGB_spec cos_zen self l w
  = match spec_correct_all cos_zen l w with
    | (w1, Ok l') => (w1, RGBCompositor_call self l')
    | (w1, Err e) => (w1, Err e)
    end.
Proof. reflexivity. Qed.

Lemma SunCorrectedRGB_call_list self (r : nat) (l : list Band) (w : world) :
  heap w !! r = Some (PyList l) →
  ∃ h',
    SunCorrectedRGB_call cos_zen self r w
    = (with_heap h' (SunCorrectedRGB_spec cos_zen self l w).1,
       (SunCorrectedRGB_spec cos_zen self l w).2)
    ∧ ∀ l', (spec_correct_all cos_zen l w).2 = Ok l' →
            h' = <[r := PyList l']> (heap w).
Proof.
  intros Hr. destruct (correct_loop_list r l [] w Hr) as (h' & Hl & Hh').
  exists h'. split; [|exact Hh'].
  unfold SunCorrectedRGB_call. unfold bind at 1. unfold load at 1. rewrite Hr.
  unfold bind at 1. simpl in Hl. simpl. rewrite Hl.
  rewrite SunCorrectedRGB_spec_unfold.
  destruct (spec_correct_all cos_zen l w) as [w1 [l'|e]]; simpl in *; [|done].
  unfold bind, load, lift. simpl. rewrite (Hh' l' eq_refl), lookup_insert_eq.
  done.
Qed.

Lemma spec_correct_all_none (l : list Band) (w : world) :
  Forall (λ p, units_is_percent p = false) l →
  spec_correct_all cos_zen l w = (w, Ok l).
Proof.
  induction 1 as [|p l Hp Hl IH]; [done|].
  rewrite spec_correct_all_cons. unfold spec_correct. rewrite Hp. unfold ret.
  by rewrite IH.
Qed.

Lemma SZN_Ok (p p' : Band) (w w' : world) :
  SunZenithNormalize_call cos_zen p w = (w', Ok p') →
  ∃ key g, cache_key p = Ok key ∧ coszen w' !! key = Some g
           ∧ Projectable_div p g = Ok p'.
Proof.
  destruct (cache_key p) as [key|e] eqn:Hk.
  - destruct (cache_key_Ok p key Hk) as (t & a & Ht & Ha & ->).
    destruct (coszen w !! (t, name a)) as [g|] eqn:Hg.
    + rewrite (SZN_hit cos_zen p _ g w Hk Hg). intros [= <- Hd]. eauto.
    + rewrite (SZN_miss cos_zen p t a w Ht Ha Hg). intros [= <- Hd].
      exists (t, name a), (cosine_grid cos_zen t a). simpl.
      by rewrite lookup_insert_eq.
  - by rewrite (SZN_key_err cos_zen p e w Hk).
Qed.

Lemma spec_correct_all_Ok (l l' : list Band) (w w1 : world) :
  spec_correct_all cos_zen l w = (w1, Ok l') →
  Forall2 (λ p p', if units_is_percent p
                   then ∃ key g, cache_key p = Ok key
                                 ∧ coszen w1 !! key = Some g
                                 ∧ Projectable_div p g = Ok p'
                   else p' = p) l l'
  ∧ ∀ k g, coszen w !! k = Some g → coszen w1 !! k = Some g.
Proof.
  revert l' w. induction l as [|p l IH]; intros l' w.
  - intros [= <- <-]. split; [constructor|done].
  - rewrite spec_correct_all_cons.
    destruct (spec_correct cos_zen p w) as [wa [p'|e]] eqn:Hc; [|done].
    destruct (spec_correct_all cos_zen l wa) as [wb [rest|e]] eqn:Hr; [|done].
    intros [= <- <-]. destruct (IH rest wa Hr) as [Hf Hm].
    unfold spec_correct in Hc. split.
    + constructor; [|done]. destruct (units_is_percent p).
      * apply SZN_Ok in Hc as (key & g & Hk & Hg & Hd). eauto 6.
      * by injection Hc as <- <-.
    + intros k g Hk. apply Hm. destruct (units_is_percent p).
      * change wa with (wa, Ok (A:=Band) p').1. rewrite <- Hc.
        by apply SZN_cache_mono.
      * by injection Hc as <- <-.
Qed.

Lemma correct_loop_tuple (r : nat) (todo done : list Band) (w : world) :
  heap w !! r = Some (PyTuple (done ++ todo)) →
  Exists (λ p, units_is_percent p = true) todo →
  ∃ w' e, correct_loop cos_zen r (length done) (length todo) w = (w', Err e)
          ∧ heap w' = heap w.
Proof.
  revert done w. induction todo as [|p todo IH]; intros done w Hr Hex.
  - by apply Exists_nil in Hex.
  - change (length (p :: todo)) with (S (length todo)).
    rewrite (correct_loop_S r _ _ w _ p Hr) by apply list_lookup_middle, eq_refl.
    destruct (units_is_percent p) eqn:Hp.
    + destruct (SunZenithNormalize_call cos_zen p w) as [w1 [p'|e]] eqn:Hn.
      * assert (Hh : heap w1 = heap w).
        { change w1 with (w1, Ok (A:=Band) p').1. rewrite <- Hn. apply SZN_heap. }
        unfold store_item. rewrite Hh, Hr. eauto.
      * exists w1, e. split; [done|].
        change w1 with (w1, Err (A:=Band) e).1. rewrite <- Hn. apply SZN_heap.
    + apply Exists_cons in Hex as [Hex|Hex]; [congruence|].
      destruct (IH (done ++ [p]) w) as (w' & e & Hl & Hh); [|done|].
      { by rewrite <- app_assoc. }
      rewrite length_app, Nat.add_1_r in Hl. eauto.
Qed.

Lemma units_is_percent_true (p : Band) :
  units_is_percent p = true ↔ in_percent p.
Proof.
  unfold units_is_percent, dict_get, in_percent.
  destruct (info p !! "units") as [[|s| | | |]|]; simpl; try done.
  rewrite String.eqb_eq. split; [by intros ->|by intros [= ->]].
Qed.

Lemma units_is_percent_false (p : Band) :
  units_is_percent p = false ↔ ¬ in_percent p.
Proof.
  rewrite <- units_is_percent_true. by destruct (units_is_percent p).
Qed.

Lemma normalize_if_percent_eq (p : Band) :
  normalize_if_percent cos_zen p = spec_correct cos_zen p.
Proof.
  unfold normalize_if_percent, spec_correct.
  destruct (in_percent_dec p) as [Hp|Hp].
  - apply units_is_percent_true in Hp. by rewrite Hp.
  - apply units_is_percent_false in Hp. by rewrite Hp.
Qed.

Lemma normalize_percent_bands_eq (l : list Band) :
  normalize_percent_bands cos_zen l = spec_correct_all cos_zen l.
Proof.
  induction l as [|p l IH]; [done|]. simpl.
  by rewrite normalize_if_percent_eq, IH.
Qed.

Lemma normalize_percent_bands_Ok (l l' : list Band) (w w1 : world) :
  normalize_percent_bands cos_zen l w = (w1, Ok l') →
  Forall2 (λ p p',
             (info p !! "units" = Some (VStr "%") →
              ∃ key g, cache_key p = Ok key ∧ coszen w1 !! key = Some g
                       ∧ Projectable_div p g = Ok p')
             ∧ (info p !! "units" ≠ Some (VStr "%") → p' = p)) l l'.
Proof.
  rewrite normalize_percent_bands_eq. intros Hc.
  destruct (spec_correct_all_Ok l l' w w1 Hc) as [Hf _].
  eapply Forall2_impl; [exact Hf|]. intros p p' Hp. simpl in Hp.
  destruct (units_is_percent p) eqn:Hu.
  - split; [done|]. intros Hn. apply units_is_percent_true in Hu. done.
  - split; [|done]. intros Hy. apply units_is_percent_false in Hu. done.
Qed.

Lemma SunCorrectedRGB_call_by_units self (r : nat) (l : list Band) (w : world) :
  heap w !! r = Some (PyList l) →
  ∃ h',
    SunCorrectedRGB_call cos_zen self r w
    = (with_heap h' (SunCorrectedRGB_by_units cos_zen self l w).1,
       (SunCorrectedRGB_by_units cos_zen self l w).2)
    ∧ ∀ l', (normalize_percent_bands cos_zen l w).2 = Ok l' →
            h' = <[r := PyList l']> (heap w).
Proof.
  intros Hr. unfold SunCorrectedRGB_by_units.
  rewrite normalize_percent_bands_eq.
  exact (SunCorrectedRGB_call_list self r l w Hr).
Qed.

Lemma in_percent_none (l : list Band) (w : world) :
  Forall (λ p, info p !! "units" ≠ Some (VStr "%")) l →
  normalize_percent_bands cos_zen l w = (w, Ok l).
Proof.
  intros Hn. rewrite normalize_percent_bands_eq. apply spec_correct_all_none.
  eapply Forall_impl; [exact Hn|]. intros p Hp.
  by apply units_is_percent_false.
Qed.

(** C7: on a list of bands the compositor does what the spec says: every
    band whose metadata has [units] equal to "%" is replaced by its
    normalised version, every other band is passed as it is, and the bands
    so obtained go to the RGB compositor; results, cache and calls of
    [cos_zen] are the same.  When the normalisations succeed, the bands
    given to the RGB compositor are, at the index of a band with units
    "%", that band divided by the cached grid of cosines of its key, and
    at any other index the band itself.  When no band has units "%", the
    world is left as it was and the result is that of the RGB compositor
    on the bands themselves. *)
Theorem C7_sun_corrected_replaces_percent_bands self (r : nat) (l : list Band)
    (w : world) :
  heap w !! r = Some (PyList l) →
  let run := SunCorrectedRGB_call cos_zen self r w in
  let spec := SunCorrectedRGB_by_units cos_zen self l w in
  run.2 = spec.2
  ∧ coszen run.1 = coszen spec.1
  ∧ cos_zen_calls run.1 = cos_zen_calls spec.1
  ∧ (∀ l', (normalize_percent_bands cos_zen l w).2 = Ok l' →
       run.2 = RGBCompositor_call self l'
       ∧ length l' = length l
       ∧ ∀ i p, l !! i = Some p →
           (info p !! "units" = Some (VStr "%") →
            ∃ key g p', cache_key p = Ok key ∧ coszen run.1 !! key = Some g
                        ∧ Projectable_div p g = Ok p' ∧ l' !! i = Some p')
           ∧ (info p !! "units" ≠ Some (VStr "%") → l' !! i = Some p))
  ∧ (Forall (λ p, info p !! "units" ≠ Some (VStr "%")) l →
     run = (w, RGBCompositor_call self l)).
Proof.
  intros Hr run spec.
  destruct (SunCorrectedRGB_call_by_units self r l w Hr) as (h' & Hrun & Hh').
  unfold run, spec. rewrite Hrun. simpl. split; [done|]. split; [done|].
  split; [done|]. unfold SunCorrectedRGB_by_units, bind, lift. split.
  - intros l' Hl'.
    destruct (normalize_percent_bands cos_zen l w) as [w1 [l1|e]] eqn:Hc;
      [|done].
    simpl in *. injection Hl' as ->.
    pose proof (normalize_percent_bands_Ok l l' w w1 Hc) as Hf.
    split; [done|]. split; [symmetry; by eapply Forall2_length|].
    intros i p Hi.
    destruct (Forall2_lookup_l _ _ _ _ _ Hf Hi) as (p' & Hi' & Hy & Hn).
    split.
    + intros Hu. destruct (Hy Hu) as (key & g & Hk & Hg & Hd). eauto 8.
    + intros Hu. by rewrite (Hn Hu) in Hi'.
  - intros Hn. rewrite in_percent_none in Hh' |- * by done. simpl in *.
    rewrite (Hh' l eq_refl), insert_id by done. by rewrite with_heap_id.
Qed.

(** C10: the compositor works on the caller's own sequence.  When it is a
    list and every normalisation succeeds, then after the call, whatever
    the RGB compositor made of the bands, the caller's list holds at every
    index of a band whose [units] is "%" that band divided by the cached
    grid of cosines of its key, and at every other index the band that was
    there; the RGB compositor is given the list so changed, and no other
    sequence is touched.  When it is a tuple with a band whose [units] is
    "%", the call raises and returns no composite. *)
Theorem C10_sun_corrected_overwrites_callers_list self (r : nat)
    (l : list Band) (w : world) :
  (heap w !! r = Some (PyList l) →
   ∀ l', (normalize_percent_bands cos_zen l w).2 = Ok l' →
     let w' := (SunCorrectedRGB_call cos_zen self r w).1 in
     heap w' !! r = Some (PyList l')
     ∧ (SunCorrectedRGB_call cos_zen self r w).2 = RGBCompositor_call self l'
     ∧ (∀ r', r' ≠ r → heap w' !! r' = heap w !! r')
     ∧ length l' = length l
     ∧ ∀ i p, l !! i = Some p →
         (info p !! "units" = Some (VStr "%") →
          ∃ key g p', cache_key p = Ok key ∧ coszen w' !! key = Some g
                      ∧ Projectable_div p g = Ok p' ∧ l' !! i = Some p')
         ∧ (info p !! "units" ≠ Some (VStr "%") → l' !! i = Some p))
  ∧ (heap w !! r = Some (PyTuple l) →
     Exists (λ p, info p !! "units" = Some (VStr "%")) l →
     ∃ e, (SunCorrectedRGB_call cos_zen self r w).2 = Err e
          ∧ heap (SunCorrectedRGB_call cos_zen self r w).1 = heap w).
Proof.
  split.
  - intros Hr l' Hl' w'.
    destruct (SunCorrectedRGB_call_by_units self r l w Hr) as (h' & Hrun & Hh').
    unfold w'. rewrite Hrun. unfold SunCorrectedRGB_by_units, bind, lift.
    destruct (normalize_percent_bands cos_zen l w) as [w1 [l1|e]] eqn:Hc;
      [|done].
    simpl in *. injection Hl' as ->. rewrite (Hh' l' eq_refl).
    pose proof (normalize_percent_bands_Ok l l' w w1 Hc) as Hf.
    split; [apply lookup_insert_eq|]. split; [done|]. split; [|split].
    + intros r' Hne. by rewrite lookup_insert_ne.
    + symmetry. by eapply Forall2_length.
    + intros i p Hi.
      destruct (Forall2_lookup_l _ _ _ _ _ Hf Hi) as (p' & Hi' & Hy & Hn).
      split.
      * intros Hu. destruct (Hy Hu) as (key & g & Hk & Hg & Hd). eauto 8.
      * intros Hu. by rewrite (Hn Hu) in Hi'.
  - intros Hr Hex.
    assert (Hex' : Exists (λ p, units_is_percent p = true) l).
    { eapply Exists_impl; [exact Hex|]. intros p Hp.
      by apply units_is_percent_true. }
    destruct (correct_loop_tuple r l [] w Hr Hex') as (w1 & e & Hl & Hh).
    exists e.
    assert (Hrun : SunCorrectedRGB_call cos_zen self r w = (w1, Err e)).
    { unfold SunCorrectedRGB_call, bind, load. rewrite Hr. simpl in *.
      by rewrite Hl. }
    by rewrite Hrun.
Qed.

End SunCorrected.

(** * The theorems at sample inputs *)

Lemma sample_full_grid_wf (x y : Q) : wf_array (sample_full_grid x y).
Proof. split; [reflexivity|]. repeat constructor. Defined.

Lemma sample_grid_wf (x : Q) : wf_array (sample_grid x).
Proof. split; [reflexivity|]. repeat constructor. Defined.

(** C1 at three sample bands of shape (1, 2): a composite is returned. *)
Lemma C1_witness :
  ∃ out,
    RGBCompositor_call sample_self
      [sample_band 1 (VStr "A"); sample_band 2 (VStr "A"); sample_band 3 VNone]
    = Ok out.
Proof.
  apply (C1_rgb_stacks_bands_in_order sample_self
           (sample_band 1 (VStr "A")) (sample_band 2 (VStr "A"))
           (sample_band 3 VNone) 1 2);
    try reflexivity; try apply sample_grid_wf.
  repeat constructor.
Defined.

(** C2 at two bands: the error names the two. *)
Lemma C2_witness :
  RGBCompositor_call sample_self [sample_band 1 VNone; sample_band 2 VNone]
  = Err (ValueError "Expected 3 projectables, got 2").
Proof.
  apply (C2_rgb_checks_band_count sample_self
           [sample_band 1 VNone; sample_band 2 VNone]).
  simpl. lia.
Defined.

(** C3 at the sample bands: the compositor's own [name] is in the
    metadata of the composite, [units] is not. *)
Lemma C3_witness :
  ∃ out,
    RGBCompositor_call sample_self_sensor
      [sample_band 1 (VStr "A"); sample_band 2 (VStr "A"); sample_band 3 (VStr "B")]
    = Ok out
    ∧ info out !! "name" = Some (VStr "overview")
    ∧ info out !! "units" = None.
Proof.
  destruct (RGBCompositor_call sample_self_sensor
              [sample_band 1 (VStr "A"); sample_band 2 (VStr "A");
               sample_band 3 (VStr "B")]) as [out|e] eqn:Hout;
    [|vm_compute in Hout; discriminate Hout].
  exists out. split; [reflexivity|].
  destruct (C3_rgb_metadata _ _ _ _ _ Hout) as (_ & _ & Hu & _ & _ & Hown & _).
  split; [|exact Hu]. apply Hown; done.
Defined.

(** C4 at sensors "A", {"B"} and [None]. *)
Lemma C4_witness :
  collect_sensors
    [sample_band 1 (VStr "A"); sample_band 2 (VSet {[ "B" ]}); sample_band 3 VNone]
  = Ok (band_sensors (sample_band 1 (VStr "A"))
        ∪ band_sensors (sample_band 2 (VSet {[ "B" ]}))
        ∪ band_sensors (sample_band 3 VNone)).
Proof.
  refine (proj1 (C4_rgb_sensor sample_self (sample_band 1 (VStr "A"))
                   (sample_band 2 (VSet {[ "B" ]})) (sample_band 3 VNone) _)).
  repeat constructor.
Defined.


(** C6 at a sample band, from an empty cache. *)
Lemma C6_witness :
  (SunZenithNormalize_call sample_cos_zen (sample_sun_band 4 5 "euro" 0)
     empty_world).2
  = Projectable_div (sample_sun_band 4 5 "euro" 0)
      (np.masked_outside (sample_cos_zen 0 (get_lonlats (sample_area "euro")).1
                            (get_lonlats (sample_area "euro")).2) (35 # 1000) 1).
Proof.
  refine (proj1 (proj2
    (C6_cosines_masked_outside sample_cos_zen (sample_sun_band 4 5 "euro" 0)
       0 (sample_area "euro") empty_world _ _ _))); reflexivity.
Defined.

(** C7 at the sample list, whose first and third bands have units "%"
    and whose second has units "K": the composite holds the first and the
    third divided by the cosines, and the second as it was. *)
Lemma C7_witness :
  ∃ out,
    (SunCorrectedRGB_call sample_cos_zen sample_self 0 sample_world).2 = Ok out
    ∧ planes (data out)
      = [[[Some (12 # 3)%Q; None]]; [[Some 7%Q; None]]; [[Some (24 # 3)%Q; None]]].
Proof.
  rewrite (proj1
    (C7_sun_corrected_replaces_percent_bands sample_cos_zen sample_self 0
       sample_bands sample_world eq_refl)).
  eexists. split; vm_compute; reflexivity.
Defined.

(** C8 at four sample bands of shape (1, 2): the composite returned holds
    A - B, C - D and A. *)
Lemma C8_witness :
  ∃ out,
    Airmass_call sample_sub_info sample_self
      [sample_sun_band 4 5 "euro" 0; sample_sun_band 1 2 "euro" 0;
       sample_sun_band 8 9 "euro" 0; sample_sun_band 3 3 "euro" 0]
    = Ok out
    ∧ data out
      = mk_MaskedArray3 (3, 1, 2)
          [[[Some 3%Q; Some 3%Q]]; [[Some 5%Q; Some 6%Q]];
           [[Some 4%Q; Some 5%Q]]].
Proof.
  destruct (proj2 (C8_airmass_channels sample_sub_info sample_self
                     (sample_sun_band 4 5 "euro" 0) (sample_sun_band 1 2 "euro" 0)
                     (sample_sun_band 8 9 "euro" 0) (sample_sun_band 3 3 "euro" 0)
                     [] 1 2)
              eq_refl eq_refl eq_refl eq_refl
              (sample_full_grid_wf 4 5) (sample_full_grid_wf 1 2)
              (sample_full_grid_wf 8 9) (sample_full_grid_wf 3 3))
    as (red & green & Hr & Hg & Ir & Ig & _ & _ & Hex).
  destruct Hex as (out & Hout & _).
  - constructor; [unfold sensor_ok; rewrite Ir; exact I|].
    constructor; [unfold sensor_ok; rewrite Ig; exact I|].
    constructor; [exact I|constructor].
  - rewrite Ir. reflexivity.
  - rewrite Ig. reflexivity.
  - reflexivity.
  - reflexivity.
  - exists out. split; [exact Hout|].
    vm_compute in Hout. injection Hout as <-. reflexivity.
Defined.

(** C9 at three sample bands of shape (1, 2): the composite returned holds
    C - B, B - A and B. *)
Lemma C9_witness :
  ∃ out,
    Dust_call sample_sub_info sample_self
      [sample_sun_band 4 5 "euro" 0; sample_sun_band 1 2 "euro" 0;
       sample_sun_band 8 9 "euro" 0]
    = Ok out
    ∧ data out
      = mk_MaskedArray3 (3, 1, 2)
          [[[Some 7%Q; Some 7%Q]]; [[Some (-3)%Q; Some (-3)%Q]];
           [[Some 1%Q; Some 2%Q]]].
Proof.
  destruct (proj2 (C9_dust_channels sample_sub_info sample_self
                     (sample_sun_band 4 5 "euro" 0) (sample_sun_band 1 2 "euro" 0)
                     (sample_sun_band 8 9 "euro" 0) [] 1 2)
              eq_refl eq_refl eq_refl
              (sample_full_grid_wf 4 5) (sample_full_grid_wf 1 2)
              (sample_full_grid_wf 8 9))
    as (red & green & Hr & Hg & Ir & Ig & _ & _ & Hex).
  destruct Hex as (out & Hout & _).
  - constructor; [unfold sensor_ok; rewrite Ir; exact I|].
    constructor; [unfold sensor_ok; rewrite Ig; exact I|].
    constructor; [exact I|constructor].
  - rewrite Ir. reflexivity.
  - rewrite Ig. reflexivity.
  - reflexivity.
  - reflexivity.
  - exists out. split; [exact Hout|].
    vm_compute in Hout. injection Hout as <-. reflexivity.
Defined.

(** C10 at the sample list and at the sample tuple: after the call the
    list holds the first and the third band divided by the cosines and the
    second band as it was; on the tuple the call raises. *)
Lemma C10_witness :
  (∃ l',
     heap (SunCorrectedRGB_call sample_cos_zen sample_self 0 sample_world).1 !! 0
     = Some (PyList l')
     ∧ map (λ p, rows (data p)) l'
       = [[[Some (12 # 3)%Q; None]]; [[Some 7%Q; None]];
          [[Some (24 # 3)%Q; None]]])
  ∧ ∃ e,
      (SunCorrectedRGB_call sample_cos_zen sample_self 1 sample_world).2 = Err e
      ∧ heap (SunCorrectedRGB_call sample_cos_zen sample_self 1 sample_world).1
        = heap sample_world.
Proof.
  split.
  - destruct (normalize_percent_bands sample_cos_zen sample_bands sample_world)
      as [w1 [l'|e]] eqn:Hc; [|vm_compute in Hc; discriminate Hc].
    exists l'. split.
    + refine (proj1 (proj1
        (C10_sun_corrected_overwrites_callers_list sample_cos_zen sample_self 0
           sample_bands sample_world) eq_refl l' _)).
      by rewrite Hc.
    + vm_compute in Hc. injection Hc as _ <-. reflexivity.
  - refine (proj2
      (C10_sun_corrected_overwrites_callers_list sample_cos_zen sample_self 1
         sample_bands sample_world) _ _).
    + reflexivity.
    + constructor. reflexivity.
Defined.

(** The sun-corrected compositor on the sample list: the cosines are
    computed once for the two bands in "%", which are divided by them and
    masked where the cosine is outside of [0.035, 1]; the caller's list
    holds the bands so corrected. *)
Example sun_corrected_sample :
  let '(w, res) := SunCorrectedRGB_call sample_cos_zen sample_self 0 sample_world in
  length (cos_zen_calls w) = 1
  ∧ (λ s, map (λ p, rows (data p)) (seq_items s)) <$> (heap w !! 0)
    = Some [[[Some (12 # 3)%Q; None]]; [[Some 7%Q; None]]; [[Some (24 # 3)%Q; None]]]
  ∧ rbind res (λ out, Ok (data out))
    = Ok (mk_MaskedArray3 (3, 1, 2)
            [[[Some (12 # 3)%Q; None]]; [[Some 7%Q; None]];
             [[Some (24 # 3)%Q; None]]]).
Proof. vm_compute. repeat split. Qed.

(** On a tuple the first band in "%" is normalised and the assignment
    raises. *)
Example sun_corrected_tuple_sample :
  (SunCorrectedRGB_call sample_cos_zen sample_self 1 sample_world).2
  = Err (TypeError "'tuple' object does not support item assignment").
Proof. vm_compute. reflexivity. Qed.

(** * Further properties of the compositors *)

(** ** The RGB compositor *)

Lemma dstack_three_shapes (a b c : MaskedArray) :
  ¬ (shape b = shape a ∧ shape c = shape a) →
  np.dstack [a; b; c] = Err (ValueError np.concatenate_shape_msg).
Proof.
  destruct a as [[ha wa] ra], b as [[hb wb] rb], c as [[hc wc] rc]. simpl.
  intros Hne. unfold np.dstack, np.concatenate2. simpl.
  destruct (Nat.eqb_spec ha hb) as [<-|]; simpl; [|done].
  destruct (Nat.eqb_spec wa wb) as [<-|]; simpl; [|done].
  destruct (Nat.eqb_spec ha hc) as [<-|]; simpl; [|done].
  destruct (Nat.eqb_spec wa wc) as [<-|]; simpl; [|done].
  by destruct Hne.
Qed.

(** X1: three bands that are not all of one shape are refused with numpy's
    [ValueError], whatever their metadata. *)
Theorem rgb_refuses_unequal_shapes self (p0 p1 p2 : Band) :
  ¬ (shape (data p1) = shape (data p0) ∧ shape (data p2) = shape (data p0)) →
  RGBCompositor_call self [p0; p1; p2]
  = Err (ValueError np.concatenate_shape_msg).
Proof.
  intros Hne. rewrite RGBCompositor_call_three.
  by rewrite (dstack_three_shapes _ _ _ Hne).
Qed.

(** X2: when the bands stack and their sensors are collected, a key [data] in
    the metadata of a band or of the compositor makes the call
    [Projectable(data=the_data, **info)] raise [TypeError]: no composite
    is returned. *)
Theorem rgb_refuses_data_key self (p0 p1 p2 : Band) (stacked : MaskedArray3) :
  np.dstack (map data [p0; p1; p2]) = Ok stacked →
  Forall sensor_ok [p0; p1; p2] →
  is_Some (info p0 !! "data") ∨ is_Some (info p1 !! "data")
  ∨ is_Some (info p2 !! "data") ∨ is_Some (composite_info self !! "data") →
  RGBCompositor_call self [p0; p1; p2]
  = Err (TypeError "got multiple values for keyword argument 'data'").
Proof.
  intros Hst Hs Hd. rewrite RGBCompositor_call_three. simpl in Hst.
  rewrite Hst. simpl. rewrite collect_sensors_ok by done. simpl.
  unfold Projectable_init. rewrite merged_info_lookup by done.
  unfold overlay_lookup.
  destruct (composite_info self !! "data"); [done|].
  destruct (info p2 !! "data"); [done|].
  destruct (info p1 !! "data"); [done|].
  destruct (info p0 !! "data"); [done|].
  destruct Hd as [[? ?]|[[? ?]|[[? ?]|[? ?]]]]; done.
Qed.

Lemma collect_sensors_Permutation (l l' : list Band) :
  l ≡ₚ l' → Forall sensor_ok l → collect_sensors l = collect_sensors l'.
Proof.
  intros Hp Hl. rewrite (collect_sensors_ok l Hl).
  rewrite (collect_sensors_ok l') by (by rewrite <- Hp).
  by rewrite Hp.
Qed.

Lemma RGBCompositor_call_Ok_three self (l : list Band) (out : Composite) :
  RGBCompositor_call self l = Ok out → ∃ p0 p1 p2, l = [p0; p1; p2].
Proof.
  unfold RGBCompositor_call.
  destruct (Nat.eqb_spec (length l) 3) as [Hl|]; simpl; [|done]. intros _.
  destruct l as [|p0 [|p1 [|p2 [|? ?]]]]; try discriminate Hl. eauto.
Qed.

Lemma RGBCompositor_call_sensor self (l : list Band) (out : Composite) :
  RGBCompositor_call self l = Ok out →
  ∃ sensor, collect_sensors l = Ok sensor
            ∧ info out !! "sensor" = Some (collapse_sensor sensor).
Proof.
  intros Hout. destruct (RGBCompositor_call_Ok_three self l out Hout)
    as (p0 & p1 & p2 & ->).
  apply RGBCompositor_call_info in Hout as (sensor & Hs & ->).
  exists sensor. split; [done|]. unfold merged_info, setitem.
  rewrite lookup_insert_ne by done. apply lookup_insert_eq.
Qed.

(** X3: the merged sensor does not depend on the order of the bands: two
    composites of the same bands, taken in any two orders, have the same
    [sensor]. *)
Theorem rgb_sensor_ignores_band_order self (l l' : list Band)
    (out out' : Composite) :
  l ≡ₚ l' → Forall sensor_ok l →
  RGBCompositor_call self l = Ok out → RGBCompositor_call self l' = Ok out' →
  info out !! "sensor" = info out' !! "sensor".
Proof.
  intros Hp Hl Hout Hout'.
  apply RGBCompositor_call_sensor in Hout as (s & Hs & ->).
  apply RGBCompositor_call_sensor in Hout' as (s' & Hs' & ->).
  rewrite (collect_sensors_Permutation l l' Hp Hl) in Hs. congruence.
Qed.

(** X4: the [sensor] of a composite is always set, to [None], to a string or
    to a set of at least two strings: never to a set of one or none. *)
Theorem rgb_sensor_is_none_string_or_proper_set self (l : list Band)
    (out : Composite) :
  RGBCompositor_call self l = Ok out →
  info out !! "sensor" = Some VNone
  ∨ (∃ s, info out !! "sensor" = Some (VStr s))
  ∨ (∃ sensor, info out !! "sensor" = Some (VSet sensor) ∧ 2 ≤ size sensor).
Proof.
  intros Hout. apply RGBCompositor_call_sensor in Hout as (sensor & _ & ->).
  unfold collapse_sensor.
  destruct (elements sensor) as [|x [|y rest]] eqn:He; [eauto..|].
  right. right. exists sensor. split; [done|].
  unfold size, set_size. simpl. rewrite He. simpl. lia.
Qed.

(** ** The recipes *)

Section MoreRecipes.

Variable sub_info : gmap string value → gmap string value → gmap string value.

(** X5: given at least six bands, the Convection compositor hands the three
    channels band 3 - band 4, band 2 - band 5 and band 1 - band 0, in that
    order, to the RGB compositor.  When the six bands are well formed and
    of one shape (H, W), the three differences exist, the stacking gives an
    array of shape (3, H, W), and the planes of every composite returned
    are those differences, cell by cell, masked where either operand is. *)
Theorem convection_channels self (p0 p1 p2 p3 p4 p5 : Band) (rest : list Band)
    (h w : nat) :
  Convection_call sub_info self (p0 :: p1 :: p2 :: p3 :: p4 :: p5 :: rest)
  = rbind (Projectable_sub sub_info p3 p4) (λ red,
    rbind (Projectable_sub sub_info p2 p5) (λ green,
    rbind (Projectable_sub sub_info p1 p0) (λ blue,
    RGBCompositor_call self [red; green; blue])))
  ∧ (Forall (λ p, shape (data p) = (h, w) ∧ wf_array (data p))
       [p0; p1; p2; p3; p4; p5] →
     ∃ red green blue,
       Projectable_sub sub_info p3 p4 = Ok red
       ∧ Projectable_sub sub_info p2 p5 = Ok green
       ∧ Projectable_sub sub_info p1 p0 = Ok blue
       ∧ rbind (np.dstack (map data [red; green; blue])) (λ s, Ok (np.rollaxis2 s))
         = Ok (stack3 red green blue h w)
       ∧ ∀ out,
           Convection_call sub_info self (p0 :: p1 :: p2 :: p3 :: p4 :: p5 :: rest)
           = Ok out →
           shape3 (data out) = (3, h, w)
           ∧ ∀ i j,
               getitem3 (data out) 0 i j
               = cell_op Qminus (getitem (data p3) i j) (getitem (data p4) i j)
               ∧ getitem3 (data out) 1 i j
                 = cell_op Qminus (getitem (data p2) i j) (getitem (data p5) i j)
               ∧ getitem3 (data out) 2 i j
                 = cell_op Qminus (getitem (data p1) i j) (getitem (data p0) i j)).
Proof.
  split; [reflexivity|]. intros Hall.
  repeat (apply Forall_cons in Hall as [[? ?] Hall]).
  destruct (Projectable_sub_ok sub_info p3 p4 h w) as (red & Hr & Sr & Wr & Cr);
    [done..|].
  destruct (Projectable_sub_ok sub_info p2 p5 h w) as (green & Hg & Sg & Wg & Cg);
    [done..|].
  destruct (Projectable_sub_ok sub_info p1 p0 h w) as (blue & Hb & Sb & Wb & Cb);
    [done..|].
  exists red, green, blue. split; [done|]. split; [done|]. split; [done|].
  destruct (RGBCompositor_call_data self red green blue h w Sr Sg Sb Wr Wg Wb)
    as (Hst & Hout).
  split; [exact Hst|]. intros out Ho.
  unfold Convection_call in Ho. simpl in Ho. rewrite Hr in Ho. simpl in Ho.
  rewrite Hg in Ho. simpl in Ho. rewrite Hb in Ho. simpl in Ho.
  rewrite (Hout out Ho). split; [done|].
  intros i j. unfold getitem3. simpl. fold (getitem (data red) i j).
  fold (getitem (data green) i j). fold (getitem (data blue) i j).
  by rewrite Cr, Cg, Cb.
Qed.

(** X6: a recipe given fewer bands than it reads returns no composite.  Dust
    reads band 2 first and raises [IndexError] at once; Airmass and
    Convection raise [IndexError] at once when even their first difference
    lacks a band, and otherwise after that difference, unless the
    difference itself raised. *)
Theorem recipes_need_their_bands self (projectables : list Band) :
  (length projectables < 3 →
   Dust_call sub_info self projectables = Err IndexError)
  ∧ (length projectables < 2 →
     Airmass_call sub_info self projectables = Err IndexError)
  ∧ (length projectables < 4 →
     ∃ e, Airmass_call sub_info self projectables = Err e)
  ∧ (length projectables < 5 →
     Convection_call sub_info self projectables = Err IndexError)
  ∧ (length projectables < 6 →
     ∃ e, Convection_call sub_info self projectables = Err e).
Proof.
  split_and!; intros Hl.
  - destruct projectables as [|p0 [|p1 [|p2 rest]]]; simpl in Hl; try lia;
      reflexivity.
  - destruct projectables as [|p0 [|p1 rest]]; simpl in Hl; try lia;
      reflexivity.
  - destruct projectables as [|p0 [|p1 [|p2 [|p3 rest]]]]; simpl in Hl;
      try lia; unfold Airmass_call; simpl; eauto;
      destruct (Projectable_sub sub_info p0 p1); simpl; eauto.
  - destruct projectables as [|p0 [|p1 [|p2 [|p3 [|p4 rest]]]]];
      simpl in Hl; try lia; reflexivity.
  - destruct projectables as [|p0 [|p1 [|p2 [|p3 [|p4 [|p5 rest]]]]]];
      simpl in Hl; try lia; unfold Convection_call; simpl; eauto;
      destruct (Projectable_sub sub_info p3 p4); simpl; eauto.
Qed.

End MoreRecipes.

(** ** The normaliser *)

Section MoreNormalizer.

Variable cos_zen : Z → ndarray → ndarray → ndarray.

(** X7: a band without [start_time], or with it and without [area], makes the
    normaliser raise [KeyError] for that key; the cache is left as it was
    and [cos_zen] is not called. *)
Theorem normalize_missing_metadata (p : Band) (w : world) :
  (info p !! "start_time" = None →
   SunZenithNormalize_call cos_zen p w = (w, Err (KeyError "start_time")))
  ∧ (is_Some (info p !! "start_time") → info p !! "area" = None →
     SunZenithNormalize_call cos_zen p w = (w, Err (KeyError "area"))).
Proof.
  split.
  - intros Ht. apply SZN_key_err. unfold cache_key, dict_getitem. by rewrite Ht.
  - intros [v Ht] Ha. apply SZN_key_err. unfold cache_key, dict_getitem.
    by rewrite Ht, Ha.
Qed.

(** X8: the grid of cosines is looked up by time and name of the area alone:
    after a band of one area, a band of the same time whose area has the
    same name and other longitudes and latitudes is divided by the cosines
    of the first area, and [cos_zen] is not called for it. *)
Theorem normalize_reuses_grid_of_same_name (p1 p2 : Band) (t : Z)
    (a1 a2 : AreaDefinition) (w : world) :
  info p1 !! "start_time" = Some (VTime t) → info p1 !! "area" = Some (VArea a1) →
  info p2 !! "start_time" = Some (VTime t) → info p2 !! "area" = Some (VArea a2) →
  name a2 = name a1 →
  coszen w !! (t, name a1) = None →
  let w1 := (SunZenithNormalize_call cos_zen p1 w).1 in
  SunZenithNormalize_call cos_zen p2 w1
  = (w1, Projectable_div p2 (cosine_grid cos_zen t a1))
  ∧ cos_zen_calls w1
    = cos_zen_calls w ++ [(t, (get_lonlats a1).1, (get_lonlats a1).2)].
Proof.
  intros Ht1 Ha1 Ht2 Ha2 Hn Hc w1. unfold w1.
  rewrite (SZN_miss cos_zen p1 t a1 w Ht1 Ha1 Hc). simpl. split; [|done].
  apply SZN_hit with (key := (t, name a1)).
  - unfold cache_key, dict_getitem. rewrite Ht2, Ha2. simpl. by rewrite Hn.
  - simpl. apply lookup_insert_eq.
Qed.

End MoreNormalizer.

(** ** The sun-corrected compositor *)

Section MoreSunCorrected.

Variable cos_zen : Z → ndarray → ndarray → ndarray.

Lemma world_extends_refl (r : nat) (w : world) : world_extends r w w.
Proof. unfold world_extends. split_and!; eauto. Qed.

Lemma world_extends_trans (r : nat) (w1 w2 w3 : world) :
  world_extends r w1 w2 → world_extends r w2 w3 → world_extends r w1 w3.
Proof.
  intros (C1 & P1 & O1 & N1 & T1 & L1) (C2 & P2 & O2 & N2 & T2 & L2).
  unfold world_extends. split_and!.
  - eauto.
  - by etrans.
  - intros r' Hr. rewrite O2, O1 by done. done.
  - eauto.
  - eauto.
  - intros items Hi. destruct (L1 items Hi) as (items1 & H1 & Hl1).
    destruct (L2 items1 H1) as (items2 & H2 & Hl2). exists items2.
    split; [done|]. congruence.
Qed.

Lemma SZN_extends (r : nat) (p : Band) (w : world) :
  world_extends r w (SunZenithNormalize_call cos_zen p w).1.
Proof.
  destruct (SZN_step cos_zen p w) as [->|(t & a & _ & Hn & ->)];
    [apply world_extends_refl|].
  unfold world_extends. simpl. split_and!; eauto.
  - intros k g Hk. rewrite lookup_insert_ne; [done|]. intros <-. congruence.
  - by apply prefix_app_r.
Qed.

Lemma store_item_extends (r i : nat) (p : Band) (w : world) :
  world_extends r w (store_item r i p w).1.
Proof.
  unfold store_item. destruct (heap w !! r) as [[items|items]|] eqn:Hr;
    try apply world_extends_refl.
  case_bool_decide; [|apply world_extends_refl].
  unfold world_extends. simpl. split_and!.
  - done.
  - done.
  - intros r' Hne. by rewrite lookup_insert_ne.
  - congruence.
  - congruence.
  - intros items0 Hi. rewrite Hr in Hi. injection Hi as <-.
    rewrite lookup_insert_eq. eexists. split; [done|]. apply length_insert.
Qed.

Lemma correct_loop_extends (r turns i : nat) (w : world) :
  world_extends r w (correct_loop cos_zen r i turns w).1.
Proof.
  revert i w. induction turns as [|turns IH]; intros i w;
    [apply world_extends_refl|].
  destruct (heap w !! r) as [s|] eqn:Hr.
  - destruct (seq_items s !! i) as [p|] eqn:Hi.
    + rewrite (correct_loop_S cos_zen r i turns w s p Hr Hi).
      destruct (units_is_percent p); [|apply IH].
      pose proof (SZN_extends r p w) as H1.
      destruct (SunZenithNormalize_call cos_zen p w) as [w1 [p'|e]]; [|done].
      pose proof (store_item_extends r i p' w1) as H2.
      destruct (store_item r i p' w1) as [w2 [[]|e]]; simpl in *.
      * eapply world_extends_trans; [exact H1|].
        eapply world_extends_trans; [exact H2|]. apply IH.
      * by eapply world_extends_trans.
    + simpl. unfold bind, load. rewrite Hr, Hi. apply world_extends_refl.
  - simpl. unfold bind, load. rewrite Hr. apply world_extends_refl.
Qed.

(** X9: whatever sequence it is given and however it ends, the sun-corrected
    compositor keeps every cached grid, only adds to the record of calls of
    [cos_zen], leaves every other sequence alone and keeps the kind and
    the length of its own: a tuple is never changed, a list keeps its
    length. *)
Theorem sun_corrected_touches_only_its_sequence self (r : nat) (w : world) :
  world_extends r w (SunCorrectedRGB_call cos_zen self r w).1.
Proof.
  unfold SunCorrectedRGB_call. unfold bind at 1. unfold load at 1.
  destruct (heap w !! r) as [s|]; [|apply world_extends_refl].
  unfold bind at 1.
  pose proof (correct_loop_extends r (length (seq_items s)) 0 w) as Hl.
  destruct (correct_loop cos_zen r 0 (length (seq_items s)) w) as [w1 [[]|e]];
    [|done].
  unfold bind, load, lift. simpl in *.
  by destruct (heap w1 !! r).
Qed.

Lemma correct_loop_none (r turns i : nat) (s : pyseq) (w : world) :
  heap w !! r = Some s →
  Forall (λ p, units_is_percent p = false) (drop i (seq_items s)) →
  correct_loop cos_zen r i turns w = (w, Ok tt).
Proof.
  intros Hr. revert i. induction turns as [|turns IH]; intros i Hn; [done|].
  destruct (seq_items s !! i) as [p|] eqn:Hi.
  - rewrite (correct_loop_S cos_zen r i turns w s p Hr Hi).
    rewrite (drop_S _ _ _ Hi) in Hn. apply Forall_cons in Hn as [-> Hn].
    by apply IH.
  - simpl. unfold bind, load. by rewrite Hr, Hi.
Qed.

(** X10: a sequence none of whose bands is in "%", a tuple as well as a list,
    is handed as it is to the RGB compositor, and the world is left as it
    was. *)
Theorem sun_corrected_without_percent self (r : nat) (s : pyseq) (w : world) :
  heap w !! r = Some s →
  Forall (λ p, units_is_percent p = false) (seq_items s) →
  SunCorrectedRGB_call cos_zen self r w
  = (w, RGBCompositor_call self (seq_items s)).
Proof.
  intros Hr Hn. unfold SunCorrectedRGB_call, bind. unfold load at 1.
  rewrite Hr. rewrite (correct_loop_none r _ 0 s w Hr) by done.
  unfold load, lift. by rewrite Hr.
Qed.

(** X11: the number of bands is checked after the bands are normalised: on a
    list of a length other than 3 whose normalisations succeed, the call
    raises the [ValueError] of the RGB compositor, yet the caller's list
    holds the normalised bands and the cache the grids computed
    meanwhile. *)
Theorem sun_corrected_checks_count_last self (r : nat) (l l' : list Band)
    (w w1 : world) :
  heap w !! r = Some (PyList l) → length l ≠ 3 →
  spec_correct_all cos_zen l w = (w1, Ok l') →
  SunCorrectedRGB_call cos_zen self r w
  = (with_heap (<[r := PyList l']> (heap w)) w1,
     Err (ValueError (expected_msg (length l)))).
Proof.
  intros Hr Hlen Hc.
  destruct (SunCorrectedRGB_call_list cos_zen self r l w Hr) as (h' & -> & Hh').
  rewrite SunCorrectedRGB_spec_unfold. rewrite Hc in Hh' |- *. simpl in *.
  rewrite (Hh' l' eq_refl).
  destruct (spec_correct_all_Ok cos_zen l l' w w1 Hc) as [Hf _].
  apply Forall2_length in Hf. unfold RGBCompositor_call. rewrite <- Hf.
  destruct (Nat.eqb_spec (length l) 3); [done|]. reflexivity.
Qed.

Lemma correct_loop_fails (r : nat) (pre : list Band) (p : Band)
    (post done pre' : list Band) (w w1 w2 : world) (e : exn) :
  heap w !! r = Some (PyList (done ++ pre ++ p :: post)) →
  spec_correct_all cos_zen pre w = (w1, Ok pre') →
  spec_correct cos_zen p w1 = (w2, Err e) →
  correct_loop cos_zen r (length done) (length (pre ++ p :: post)) w
  = (with_heap (<[r := PyList (done ++ pre' ++ p :: post)]> (heap w)) w2, Err e).
Proof.
  revert done pre' w w1 w2.
  induction pre as [|q pre IH]; intros done pre' w w1 w2 Hr Hpre Hp.
  - injection Hpre as <- <-. simpl app in *.
    change (length (p :: post)) with (S (length post)).
    rewrite (correct_loop_S cos_zen r _ _ w _ p Hr)
      by apply list_lookup_middle, eq_refl.
    unfold spec_correct in Hp. destruct (units_is_percent p); [|done].
    rewrite Hp. rewrite insert_id by done.
    assert (Hh : heap w2 = heap w).
    { change w2 with (w2, Err (A:=Band) e).1. rewrite <- Hp. apply SZN_heap. }
    by rewrite <- Hh, with_heap_id.
  - rewrite spec_correct_all_cons in Hpre.
    destruct (spec_correct cos_zen q w) as [wa [q'|e']] eqn:Hq; [|done].
    destruct (spec_correct_all cos_zen pre wa) as [wb [rest|e']] eqn:Hrest;
      [|done].
    injection Hpre as <- <-.
    change (length ((q :: pre) ++ p :: post))
      with (S (length (pre ++ p :: post))).
    rewrite (correct_loop_S cos_zen r _ _ w _ q Hr)
      by apply list_lookup_middle, eq_refl.
    unfold spec_correct in Hq. destruct (units_is_percent q) eqn:Hu.
    + rewrite Hq.
      assert (Hh : heap wa = heap w).
      { change wa with (wa, Ok (A:=Band) q').1. rewrite <- Hq. apply SZN_heap. }
      unfold store_item. rewrite Hh, Hr.
      rewrite bool_decide_eq_true_2 by (rewrite !length_app; simpl; lia).
      rewrite (insert_app_r_alt _ _ (length done)) by lia.
      rewrite Nat.sub_diag. simpl.
      set (h1 := <[r := PyList (done ++ q' :: pre ++ p :: post)]> (heap w)).
      change (mk_world (coszen wa) (cos_zen_calls wa) h1) with (with_heap h1 wa).
      specialize (IH (done ++ [q']) rest (with_heap h1 wa)
                    (with_heap h1 wb) (with_heap h1 w2)).
      rewrite length_app, Nat.add_1_r in IH. rewrite IH.
      * simpl. unfold h1, with_heap. simpl. rewrite insert_insert_eq.
        by rewrite <- app_assoc.
      * simpl. unfold h1. rewrite lookup_insert_eq. by rewrite <- app_assoc.
      * by rewrite spec_correct_all_frame, Hrest.
      * by rewrite spec_correct_frame, Hp.
    + injection Hq as <- <-.
      specialize (IH (done ++ [q]) rest w wb w2).
      rewrite length_app, Nat.add_1_r in IH. rewrite IH.
      * by rewrite <- app_assoc.
      * by rewrite <- app_assoc.
      * done.
      * done.
Qed.

(** X12: nothing is undone when a normalisation fails: if the bands before
    band [p] of the caller's list are corrected and the normalisation of
    [p] raises, the call raises the same, and the caller's list then
    holds the corrected bands before [p], followed by [p] and the bands
    after it as they were. *)
Theorem sun_corrected_keeps_bands_done_before_failure self (r : nat)
    (pre : list Band) (p : Band) (post pre' : list Band) (w w1 w2 : world)
    (e : exn) :
  heap w !! r = Some (PyList (pre ++ p :: post)) →
  spec_correct_all cos_zen pre w = (w1, Ok pre') →
  spec_correct cos_zen p w1 = (w2, Err e) →
  SunCorrectedRGB_call cos_zen self r w
  = (with_heap (<[r := PyList (pre' ++ p :: post)]> (heap w)) w2, Err e).
Proof.
  intros Hr Hpre Hp.
  pose proof (correct_loop_fails r pre p post [] pre' w w1 w2 e Hr Hpre Hp)
    as Hl. simpl in Hl.
  unfold SunCorrectedRGB_call, bind. unfold load at 1. rewrite Hr.
  simpl seq_items. by rewrite Hl.
Qed.

End MoreSunCorrected.

(** ** The composite descriptor *)

Lemma split_comma_length (s : string) :
  length (split_comma s) = S (count_commas s).
Proof.
  induction s as [|c s IH]; [done|]. simpl.
  destruct (Ascii.eqb c ","); simpl; [by rewrite IH|].
  destruct (split_comma s); simpl in *; lia.
Qed.

Lemma split_comma_join (s : string) : join_comma (split_comma s) = s.
Proof.
  unfold join_comma. induction s as [|c s IH]; [done|]. simpl.
  pose proof (split_comma_length s) as Hl.
  destruct (Ascii.eqb_spec c ",") as [->|_].
  - destruct (split_comma s) as [|token tokens]; [done|].
    simpl in *. by rewrite IH.
  - destruct (split_comma s) as [|token [|token' tokens]]; [done|..];
      simpl in *; by rewrite <- IH.
Qed.

Lemma split_comma_tokens (s : string) :
  Forall (λ token, count_commas token = 0) (split_comma s).
Proof.
  induction s as [|c s IH]; [by repeat constructor|]. simpl.
  destruct (Ascii.eqb c ",") eqn:Hc; [by constructor|].
  destruct (split_comma s) as [|token tokens]; [repeat constructor; simpl|].
  - by rewrite Hc.
  - apply Forall_cons in IH as [Ht Hts]. constructor; [|done].
    simpl. by rewrite Hc.
Qed.

Lemma append_prerequisites {A F} (f : A → prerequisite F)
    (kwargs : gmap string (attribute F)) (l : list (prerequisite F))
    (tokens : list A) :
  kwargs !! "prerequisites" = Some (Prerequisites l) →
  foldl (λ kw token, append_prerequisite kw (f token)) kwargs tokens
  = <["prerequisites" := Prerequisites (l ++ map f tokens)]> kwargs.
Proof.
  revert kwargs l. induction tokens as [|t tokens IH]; intros kwargs l Hk; simpl.
  - rewrite app_nil_r. by rewrite insert_id.
  - unfold append_prerequisite at 2. rewrite Hk.
    rewrite (IH _ (l ++ [f t])) by apply lookup_insert_eq.
    rewrite insert_insert_eq. by rewrite <- app_assoc.
Qed.

Lemma setdefault_all_lookup {F} (d config : gmap string (attribute F))
    (k : string) :
  map_fold setdefault d config !! k
  = match d !! k with
    | Some a => Some a
    | None => config !! k
    end.
Proof.
  revert k. apply (map_fold_weak_ind (λ r m, ∀ k, r !! k = match d !! k with
                                                            | Some a => Some a
                                                            | None => m !! k
                                                            end)).
  - intros k. rewrite lookup_empty. by destruct (d !! k).
  - intros i x m r Hi IH k. unfold setdefault.
    destruct (r !! i) as [y|] eqn:Hri.
    + rewrite IH. destruct (d !! k) eqn:Hd; [done|].
      destruct (decide (i = k)) as [->|Hne]; [|by rewrite lookup_insert_ne].
      rewrite IH, Hd, Hi in Hri. done.
    + destruct (decide (i = k)) as [->|Hne].
      * rewrite !lookup_insert_eq. rewrite IH in Hri.
        by destruct (d !! k).
      * rewrite !lookup_insert_ne by done. apply IH.
Qed.

Section MoreInit.

Context {F : Type} (float : string → option F).

Lemma CompositeBase_init_kwargs (name compositor : value) (prerequisites : string)
    (kwargs : gmap string (attribute F)) :
  CompositeBase_init float name compositor prerequisites None kwargs
  = <["prerequisites" :=
        Prerequisites (map (read_prerequisite float) (split_comma prerequisites))]>
      (<["compositor" := Plain compositor]> (<["name" := Plain name]> kwargs)).
Proof.
  unfold CompositeBase_init.
  rewrite (append_prerequisites _ _ []) by apply lookup_insert_eq.
  by rewrite insert_insert_eq.
Qed.

Lemma CompositeBase_init_lookup (name compositor : value) (prerequisites : string)
    (config : option (gmap string (attribute F))) (kwargs : gmap string (attribute F))
    (k : string) :
  CompositeBase_init float name compositor prerequisites config kwargs !! k
  = match CompositeBase_init float name compositor prerequisites None kwargs !! k with
    | Some a => Some a
    | None => config ≫= (.!! k)
    end.
Proof.
  destruct config as [config|]; simpl.
  - apply setdefault_all_lookup.
  - by destruct (_ !! k).
Qed.

(** X13: the [info] of a composite always holds the name, the compositor and
    the prerequisites it was constructed with; every other keyword
    argument is kept as given; an option of the default image
    configuration is taken only for a key that none of these sets. *)
Theorem composite_init_defaults_never_override (name compositor : value)
    (prerequisites : string) (config : option (gmap string (attribute F)))
    (kwargs : gmap string (attribute F)) :
  let self_info :=
    CompositeBase_init float name compositor prerequisites config kwargs in
  self_info !! "name" = Some (Plain name)
  ∧ self_info !! "compositor" = Some (Plain compositor)
  ∧ self_info !! "prerequisites"
    = Some (Prerequisites (map (read_prerequisite float)
                             (split_comma prerequisites)))
  ∧ (∀ k, k ≠ "name" → k ≠ "compositor" → k ≠ "prerequisites" →
       self_info !! k = match kwargs !! k with
                        | Some a => Some a
                        | None => config ≫= (.!! k)
                        end).
Proof.
  intros self_info. unfold self_info. split_and!.
  - rewrite CompositeBase_init_lookup, CompositeBase_init_kwargs.
    rewrite !lookup_insert_ne by done. by rewrite lookup_insert_eq.
  - rewrite CompositeBase_init_lookup, CompositeBase_init_kwargs.
    rewrite lookup_insert_ne by done. by rewrite lookup_insert_eq.
  - rewrite CompositeBase_init_lookup, CompositeBase_init_kwargs.
    by rewrite lookup_insert_eq.
  - intros k H1 H2 H3.
    rewrite CompositeBase_init_lookup, CompositeBase_init_kwargs.
    by rewrite !lookup_insert_ne by done.
Qed.

(** X14: the prerequisites of a composite follow the pieces of the string
    between its commas: there is one prerequisite for each piece, in
    order, one more than there are commas and so never none; the pieces
    hold no comma and joined by commas give the string back; a piece that
    [float] reads is the wavelength that [float] gives, and a piece that
    [float] refuses is kept as it is, as a name. *)
Theorem composite_prerequisites_follow_the_tokens (name compositor : value)
    (prerequisites : string) (config : option (gmap string (attribute F)))
    (kwargs : gmap string (attribute F)) :
  ∃ tokens ps,
    join_comma tokens = prerequisites
    ∧ Forall (λ token, count_commas token = 0) tokens
    ∧ length tokens = S (count_commas prerequisites)
    ∧ CompositeBase_prerequisites
        (CompositeBase_init float name compositor prerequisites config kwargs)
      = Ok (Prerequisites ps)
    ∧ length ps = length tokens
    ∧ ∀ i token, tokens !! i = Some token →
        (∀ x, float token = Some x → ps !! i = Some (ByWavelength x))
        ∧ (float token = None → ps !! i = Some (ByName token)).
Proof.
  exists (split_comma prerequisites),
    (map (read_prerequisite float) (split_comma prerequisites)).
  split_and!.
  - apply split_comma_join.
  - apply split_comma_tokens.
  - apply split_comma_length.
  - unfold CompositeBase_prerequisites.
    rewrite CompositeBase_init_lookup, CompositeBase_init_kwargs.
    by rewrite lookup_insert_eq.
  - apply length_map.
  - intros i token Hi. rewrite list_lookup_fmap, Hi. simpl.
    unfold read_prerequisite. split.
    + by intros x ->.
    + by intros ->.
Qed.

End MoreInit.

(** ** The further properties at sample inputs *)

(** Bands of shapes (1, 2), (2, 1) and (1, 2) are refused. *)
Lemma rgb_refuses_unequal_shapes_witness :
  RGBCompositor_call sample_self
    [sample_band 1 VNone; sample_tall_band; sample_band 3 VNone]
  = Err (ValueError np.concatenate_shape_msg).
Proof.
  apply (rgb_refuses_unequal_shapes sample_self (sample_band 1 VNone)
           sample_tall_band (sample_band 3 VNone)).
  intros [H _]. discriminate H.
Defined.

(** A band with a key [data] between two sample bands. *)
Lemma rgb_refuses_data_key_witness :
  RGBCompositor_call sample_self
    [sample_band 1 VNone; sample_data_band; sample_band 3 VNone]
  = Err (TypeError "got multiple values for keyword argument 'data'").
Proof.
  eapply (rgb_refuses_data_key sample_self (sample_band 1 VNone)
            sample_data_band (sample_band 3 VNone)).
  - vm_compute. reflexivity.
  - repeat constructor.
  - right. left. vm_compute. eauto.
Defined.

(** The sample bands and the same with the first two exchanged. *)
Lemma rgb_sensor_ignores_band_order_witness :
  ∃ out out',
    RGBCompositor_call sample_self sample_plain_bands = Ok out
    ∧ RGBCompositor_call sample_self
        [sample_band 2 (VStr "B"); sample_band 1 (VStr "A"); sample_band 3 VNone]
      = Ok out'
    ∧ info out !! "sensor" = info out' !! "sensor".
Proof.
  destruct (RGBCompositor_call sample_self sample_plain_bands)
    as [out|e] eqn:Hout; [|vm_compute in Hout; discriminate Hout].
  destruct (RGBCompositor_call sample_self
              [sample_band 2 (VStr "B"); sample_band 1 (VStr "A");
               sample_band 3 VNone])
    as [out'|e] eqn:Hout'; [|vm_compute in Hout'; discriminate Hout'].
  exists out, out'. split; [reflexivity|]. split; [reflexivity|].
  apply (rgb_sensor_ignores_band_order sample_self sample_plain_bands
           [sample_band 2 (VStr "B"); sample_band 1 (VStr "A");
            sample_band 3 VNone] out out').
  - apply perm_swap.
  - repeat constructor.
  - exact Hout.
  - exact Hout'.
Defined.

(** The sensor of the composite of the sample bands. *)
Lemma rgb_sensor_form_witness :
  ∃ out,
    RGBCompositor_call sample_self sample_plain_bands = Ok out
    ∧ (info out !! "sensor" = Some VNone
       ∨ (∃ s, info out !! "sensor" = Some (VStr s))
       ∨ (∃ sensor, info out !! "sensor" = Some (VSet sensor) ∧ 2 ≤ size sensor)).
Proof.
  destruct (RGBCompositor_call sample_self sample_plain_bands)
    as [out|e] eqn:Hout; [|vm_compute in Hout; discriminate Hout].
  exists out. split; [reflexivity|].
  exact (rgb_sensor_is_none_string_or_proper_set sample_self
           sample_plain_bands out Hout).
Defined.

(** Six sample bands of shape (1, 2). *)
Lemma convection_channels_witness :
  ∃ red green blue,
    Projectable_sub sample_sub_info (sample_sun_band 7 7 "euro" 0)
      (sample_sun_band 9 9 "euro" 0) = Ok red
    ∧ Projectable_sub sample_sub_info (sample_sun_band 5 6 "euro" 0)
        (sample_sun_band 2 2 "euro" 0) = Ok green
    ∧ Projectable_sub sample_sub_info (sample_sun_band 3 4 "euro" 0)
        (sample_sun_band 1 2 "euro" 0) = Ok blue.
Proof.
  destruct (proj2 (convection_channels sample_sub_info sample_self
                     (sample_sun_band 1 2 "euro" 0) (sample_sun_band 3 4 "euro" 0)
                     (sample_sun_band 5 6 "euro" 0) (sample_sun_band 7 7 "euro" 0)
                     (sample_sun_band 9 9 "euro" 0) (sample_sun_band 2 2 "euro" 0)
                     [] 1 2))
    as (red & green & blue & Hr & Hg & Hb & _).
  { repeat constructor. }
  exists red, green, blue. repeat split; assumption.
Defined.

(** Two bands are too few for Dust. *)
Lemma recipes_need_their_bands_witness :
  Dust_call sample_sub_info sample_self sample_two_bands = Err IndexError.
Proof.
  apply (recipes_need_their_bands sample_sub_info sample_self sample_two_bands).
  simpl. lia.
Defined.

(** The band without [start_time], on the empty world. *)
Lemma normalize_missing_metadata_witness :
  SunZenithNormalize_call sample_cos_zen sample_untimed_band empty_world
  = (empty_world, Err (KeyError "start_time")).
Proof.
  apply (normalize_missing_metadata sample_cos_zen sample_untimed_band
           empty_world).
  reflexivity.
Defined.

(** A band of the area "euro", then a band of the shifted area of the same
    name. *)
Lemma normalize_reuses_grid_witness :
  SunZenithNormalize_call sample_cos_zen (sample_shifted_band 8 9 "euro" 0)
    (SunZenithNormalize_call sample_cos_zen (sample_sun_band 4 5 "euro" 0)
       empty_world).1
  = ((SunZenithNormalize_call sample_cos_zen (sample_sun_band 4 5 "euro" 0)
        empty_world).1,
     Projectable_div (sample_shifted_band 8 9 "euro" 0)
       (cosine_grid sample_cos_zen 0 (sample_area "euro"))).
Proof.
  refine (proj1 (normalize_reuses_grid_of_same_name sample_cos_zen
                   (sample_sun_band 4 5 "euro" 0)
                   (sample_shifted_band 8 9 "euro" 0) 0
                   (sample_area "euro") (sample_area_shifted "euro")
                   empty_world _ _ _ _ _ _)); reflexivity.
Defined.

(** The sample tuple of bands in "K". *)
Lemma sun_corrected_without_percent_witness :
  SunCorrectedRGB_call sample_cos_zen sample_self 0 sample_world_more
  = (sample_world_more, RGBCompositor_call sample_self sample_plain_bands).
Proof.
  apply (sun_corrected_without_percent sample_cos_zen sample_self 0
           (PyTuple sample_plain_bands) sample_world_more).
  - reflexivity.
  - repeat constructor.
Defined.

(** The sample list of two bands in "%". *)
Lemma sun_corrected_checks_count_last_witness :
  (SunCorrectedRGB_call sample_cos_zen sample_self 1 sample_world_more).2
  = Err (ValueError "Expected 3 projectables, got 2")
  ∧ length (cos_zen_calls
              (SunCorrectedRGB_call sample_cos_zen sample_self 1
                 sample_world_more).1) = 1.
Proof.
  destruct (spec_correct_all sample_cos_zen sample_two_bands sample_world_more)
    as [w1 [l'|e]] eqn:Hc; [|vm_compute in Hc; discriminate Hc].
  rewrite (sun_corrected_checks_count_last sample_cos_zen sample_self 1
             sample_two_bands l' sample_world_more w1 eq_refl
             ltac:(simpl; lia) Hc).
  split; [reflexivity|]. simpl.
  vm_compute in Hc. injection Hc as <- _. reflexivity.
Defined.

(** The sample list whose second band has no [start_time]. *)
Lemma sun_corrected_keeps_bands_done_witness :
  ∃ first,
    heap (SunCorrectedRGB_call sample_cos_zen sample_self 2 sample_world_more).1
      !! 2
    = Some (PyList [first; sample_untimed_band; sample_sun_band 8 9 "euro" 0])
    ∧ rows (data first) = [[Some (12 # 3)%Q; None]]
    ∧ (SunCorrectedRGB_call sample_cos_zen sample_self 2 sample_world_more).2
      = Err (KeyError "start_time").
Proof.
  destruct (spec_correct_all sample_cos_zen [sample_sun_band 4 5 "euro" 0]
              sample_world_more)
    as [w1 [pre'|e]] eqn:Hc; [|vm_compute in Hc; discriminate Hc].
  rewrite (sun_corrected_keeps_bands_done_before_failure sample_cos_zen
             sample_self 2 [sample_sun_band 4 5 "euro" 0] sample_untimed_band
             [sample_sun_band 8 9 "euro" 0] pre' sample_world_more w1 w1
             (KeyError "start_time") eq_refl Hc eq_refl).
  vm_compute in Hc. injection Hc as _ <-.
  eexists. split; [simpl; rewrite lookup_insert_eq; reflexivity|].
  split; reflexivity.
Defined.

(** X14 at the prerequisites "0.6,IR_108,", with [sample_float]: three
    prerequisites, the wavelength 0.6, the name "IR_108" and the empty
    name. *)
Lemma composite_prerequisites_witness :
  ∃ ps,
    CompositeBase_prerequisites
      (CompositeBase_init sample_float (VStr "overview") (VStr "rgb")
         "0.6,IR_108," None ∅)
    = Ok (Prerequisites ps)
    ∧ length ps = 3
    ∧ ps = [ByWavelength (6 # 10)%Q; ByName "IR_108"; ByName ""].
Proof.
  destruct (composite_prerequisites_follow_the_tokens sample_float
              (VStr "overview") (VStr "rgb") "0.6,IR_108," None ∅)
    as (tokens & ps & _ & _ & Hl & Hacc & Hlen & _).
  exists ps. split; [exact Hacc|]. split; [by rewrite Hlen, Hl|].
  vm_compute in Hacc. by injection Hacc as <-.
Defined.

(** The descriptor of a composite of prerequisites "0.6,IR_108,": a
    wavelength, a name and, for the empty piece after the last comma, the
    empty name; the default of [gamma] is taken, that of [name] is not. *)
Example composite_init_sample :
  let self_info :=
    CompositeBase_init sample_float (VStr "overview") (VStr "rgb") "0.6,IR_108,"
      (Some {[ "gamma" := Plain (VNum 2); "name" := Plain (VStr "default") ]})
      {[ "sensor" := Plain (VStr "seviri") ]} in
  CompositeBase_prerequisites self_info
  = Ok (Prerequisites [ByWavelength (6 # 10)%Q; ByName "IR_108"; ByName ""])
  ∧ self_info !! "name" = Some (Plain (VStr "overview"))
  ∧ self_info !! "gamma" = Some (Plain (VNum 2))
  ∧ self_info !! "sensor" = Some (Plain (VStr "seviri")).
Proof. vm_compute. repeat split. Qed.
